(** * usps-webtools: the request/response pipeline of [src/usps.js]

    A shallow embedding of the client module: the values the module
    handles, the built-in operations it uses on them (property reads,
    truthiness, [trim], [split], [parseInt], [Array.isArray]), the
    constructor, the four public operations and [callUSPS], followed by
    the properties of the module.

    Conventions of the model.
    - A string is a sequence of code units below 256, held in a [string].
    - An object is the list of its own properties in insertion order; a
      read of a key that is not an own property gives [undefined]:
      members inherited from the built-in prototypes are not data of a
      response and are not represented, apart from [length] and the
      [trim] method of strings.
    - A number is [NaN], an infinity or a rational; the sign of zero is
      not represented.  ToString prints a number in decimal notation as
      the language defines it; the digits after the point of a number
      that is not whole, and exponent notation, are the host's.
    - An exception is a completion [Throw]; the only exceptions raised by
      the module's own code are the host's TypeError and the string the
      constructor throws; the XML builder may throw on a tree it
      refuses. *)

From Stdlib Require Import String Ascii List Bool Arith ZArith QArith Qabs Lia.
From Stdlib Require Import DecimalString DecimalN DecimalPos.
Import ListNotations.

Set Warnings "-register-all".

Local Open Scope string_scope.
Local Open Scope Z_scope.

(** ** Values *)

Inductive number : Type :=
| NaN
| Inf (negative : bool)
| Fin (q : Q).

Inductive value : Type :=
| VUndef
| VNull
| VBool (b : bool)
| VNum (n : number)
| VStr (s : string)
| VArr (items : list value)
| VObj (props : list (string * value)).

(** The own properties of an object, in insertion order. *)
Definition obj : Type := list (string * value).

Definition num_of_Z (z : Z) : number := Fin (inject_Z z).
Definition VInt (z : Z) : value := VNum (num_of_Z z).

Inductive exn : Type :=
| TypeError
| Thrown (payload : string).

Inductive result (A : Type) : Type :=
| Ok (a : A)
| Throw (e : exn).
Arguments Ok {A} a.
Arguments Throw {A} e.

Definition rbind {A B} (r : result A) (k : A -> result B) : result B :=
  match r with
  | Ok a => k a
  | Throw e => Throw e
  end.

Notation "x <-? r ; k" := (rbind r (fun x => k))
  (at level 61, r at next level, right associativity).

(** ** Built-in operations *)

(** ToBoolean. *)
Definition truthy (v : value) : bool :=
  match v with
  | VUndef | VNull => false
  | VBool b => b
  | VNum NaN => false
  | VNum (Inf _) => true
  | VNum (Fin q) => negb (Qeq_bool q 0)
  | VStr s => negb (String.eqb s "")
  | VArr _ | VObj _ => true
  end.

(** [a || b]. *)
Definition js_or (a b : value) : value := if truthy a then a else b.

Definition is_array (v : value) : bool :=
  match v with
  | VArr _ => true
  | _ => false
  end.

Fixpoint lookup (kvs : obj) (key : string) : option value :=
  match kvs with
  | [] => None
  | (k, v) :: rest => if String.eqb k key then Some v else lookup rest key
  end.

(** [o[key] = v] on the own properties of [o]: an existing key keeps its
    place, a new one goes last. *)
Fixpoint set_key (kvs : obj) (key : string) (v : value) : obj :=
  match kvs with
  | [] => [(key, v)]
  | (k, v') :: rest =>
      if String.eqb k key then (k, v) :: rest else (k, v') :: set_key rest key v
  end.

Definition digit_of (c : ascii) : option N :=
  let n := N_of_ascii c in
  if ((48 <=? n) && (n <=? 57))%N then Some (n - 48)%N else None.

Fixpoint all_digits (s : string) : bool :=
  match s with
  | EmptyString => true
  | String c rest =>
      match digit_of c with
      | Some _ => all_digits rest
      | None => false
      end
  end.

Fixpoint digits_value (acc : N) (s : string) : N :=
  match s with
  | EmptyString => acc
  | String c rest =>
      match digit_of c with
      | Some d => digits_value (10 * acc + d)%N rest
      | None => acc
      end
  end.

(** A key is an array index when it is the canonical decimal numeral of a
    natural number: ["0"], or digits that do not start with ['0']. *)
Definition index_of_key (key : string) : option nat :=
  match key with
  | EmptyString => None
  | String c rest =>
      if all_digits key && (String.eqb key "0" || negb (Ascii.eqb c "0"))
      then Some (N.to_nat (digits_value 0 key))
      else None
  end.

Definition length_value {A} (l : list A) : value :=
  VInt (Z.of_nat (List.length l)).

(** [v[key]]: reading a property of [undefined] or [null] is a TypeError;
    arrays and strings answer their indices and [length].  Own
    properties only: a key that names an inherited member
    ([constructor], [toString], ...) reads as [undefined] here, so a
    statement about every key or path says nothing of the code at such
    a key; the keys the module reads itself ([Error], [Description],
    [0], the fields and the four result paths) are not inherited. *)
Definition get_prop (v : value) (key : string) : result value :=
  match v with
  | VUndef | VNull => Throw TypeError
  | VBool _ | VNum _ => Ok VUndef
  | VStr s =>
      match index_of_key key with
      | Some i =>
          match String.get i s with
          | Some c => Ok (VStr (String c EmptyString))
          | None => Ok VUndef
          end
      | None =>
          if String.eqb key "length" then Ok (VInt (Z.of_nat (String.length s)))
          else Ok VUndef
      end
  | VArr items =>
      match index_of_key key with
      | Some i => Ok (nth i items VUndef)
      | None => if String.eqb key "length" then Ok (length_value items) else Ok VUndef
      end
  | VObj props =>
      match lookup props key with
      | Some x => Ok x
      | None => Ok VUndef
      end
  end.

(** WhiteSpace and LineTerminator code units below 256. *)
Definition is_space (c : ascii) : bool :=
  let n := N_of_ascii c in
  (((9 <=? n) && (n <=? 13)) || (n =? 32) || (n =? 160))%N.

Fixpoint ltrim (s : string) : string :=
  match s with
  | EmptyString => EmptyString
  | String c rest => if is_space c then ltrim rest else s
  end.

Fixpoint rtrim (s : string) : string :=
  match s with
  | EmptyString => EmptyString
  | String c rest =>
      match rtrim rest with
      | EmptyString => if is_space c then EmptyString else String c EmptyString
      | kept => String c kept
      end
  end.

(** [String.prototype.trim]. *)
Definition trim (s : string) : string := rtrim (ltrim s).

(** [v.trim()]: only a string has the method; on anything else the call is
    a TypeError (no member, or a member that is not callable). *)
Definition call_trim (v : value) : result value :=
  match v with
  | VStr s => Ok (VStr (trim s))
  | _ => Throw TypeError
  end.

(** [s.split(sep)] for a one-character separator. *)
Fixpoint split (sep : ascii) (s : string) : list string :=
  match s with
  | EmptyString => [EmptyString]
  | String c rest =>
      if Ascii.eqb c sep then EmptyString :: split sep rest
      else
        match split sep rest with
        | part :: parts => String c part :: parts
        | [] => [String c EmptyString]
        end
  end.

(** Round a natural number to the nearest binary64 value, ties to even;
    [None] when it overflows to infinity. *)
Definition round_binary64 (m : Z) : option Z :=
  if m <? 2 ^ 53 then Some m
  else
    let e := Z.log2 m - 52 in
    let q := m / 2 ^ e in
    let r := m mod 2 ^ e in
    let half := 2 ^ (e - 1) in
    let q' := if (half <? r) || ((r =? half) && Z.odd q) then q + 1 else q in
    let v := q' * 2 ^ e in
    if 2 ^ 1024 <=? v then None else Some v.

Definition has_digit (s : string) : bool :=
  match s with
  | EmptyString => false
  | String c _ =>
      match digit_of c with
      | Some _ => true
      | None => false
      end
  end.

(** [parseInt(s, 10)] on a string: leading white space is skipped, a sign
    is read, then the longest run of decimal digits; no digit gives NaN. *)
Definition parseInt10 (s : string) : number :=
  let s1 := ltrim s in
  let '(negative, body) :=
    match s1 with
    | String "-" rest => (true, rest)
    | String "+" rest => (false, rest)
    | _ => (false, s1)
    end in
  if has_digit body then
    match round_binary64 (Z.of_N (digits_value 0 body)) with
    | Some m => num_of_Z (if negative then - m else m)
    | None => Inf negative
    end
  else NaN.

Definition Qneg (q : Q) : bool :=
  match Qcompare q 0 with
  | Lt => true
  | _ => false
  end.

(** [a / b].  The quotient of two finite numbers is the exact rational,
    which is the host's quotient whenever that is representable, as it
    is for an integer divided by 16. *)
Definition num_div (a b : number) : number :=
  match a, b with
  | NaN, _ | _, NaN => NaN
  | Inf _, Inf _ => NaN
  | Inf s, Fin q => Inf (xorb s (Qneg q))
  | Fin _, Inf _ => Fin 0
  | Fin p, Fin q =>
      if Qeq_bool q 0
      then (if Qeq_bool p 0 then NaN else Inf (Qneg p))
      else Fin (Qred (p / q))
  end.

(** [a || b] on numbers. *)
Definition num_or (a b : number) : number :=
  if truthy (VNum a) then a else b.

(** [o[key] = v].  The module assigns only into objects it was given or
    has built; a primitive ignores the assignment. *)
Definition assign (o : value) (key : string) (v : value) : result value :=
  match o with
  | VUndef | VNull => Throw TypeError
  | VObj props => Ok (VObj (set_key props key v))
  | other => Ok other
  end.

(** ** The collaborators *)

Record request_opts : Type := {
  url : value;
  qs_API : string;
  qs_XML : string;
  timeout : value
}.

(** What the module requires and does not define.  [request] and
    [parseString] stand for the one invocation of the callback they are
    given: [request] hands it [(err, res, body)], [parseString] hands it
    [(err, result)].  [build_xml] is [builder.create(obj).end()], which
    throws on a tree the builder refuses.  [to_string] is ToString of a
    finite number in exponent notation, [fraction_digits] the digits
    ToString prints after the point of a number that is not whole. *)
Record host : Type := {
  build_xml : value -> result string;
  request : request_opts -> value * value * value;
  parseString : value -> value * value;
  to_string : value -> string;
  fraction_digits : Q -> string
}.

(** The decimal numeral of a natural number. *)
Definition decimal (n : N) : string := NilZero.string_of_uint (N.to_uint n).

(** The integer part of a rational, towards zero. *)
Definition Qtrunc (q : Q) : Z := Z.quot (Qnum q) (Zpos (Qden q)).

Definition Qwhole (q : Q) : bool := Z.rem (Qnum q) (Zpos (Qden q)) =? 0.

(** The numbers ToString prints without an exponent: zero, and those
    from [1e-6] up to, but not including, [1e21] in magnitude. *)
Definition decimal_notation (q : Q) : bool :=
  Qeq_bool q 0 ||
  (Qle_bool (1 # 1000000) (Qabs q) &&
   negb (Qle_bool (inject_Z (10 ^ 21)) (Qabs q))).

(** Number::toString. *)
Definition number_to_string (h : host) (n : number) : string :=
  match n with
  | NaN => "NaN"
  | Inf false => "Infinity"
  | Inf true => "-Infinity"
  | Fin q =>
      if decimal_notation q then
        ((if Qneg q then "-" else "")
         ++ decimal (Z.to_N (Z.abs (Qtrunc q)))
         ++ (if Qwhole q then "" else "." ++ fraction_digits h q))%string
      else to_string h (VNum n)
  end.

(** ToString; an object of a tree has no [toString] of its own. *)
Fixpoint ToString (h : host) (v : value) : string :=
  match v with
  | VUndef => "undefined"
  | VNull => "null"
  | VBool true => "true"
  | VBool false => "false"
  | VNum n => number_to_string h n
  | VStr s => s
  | VArr items =>
      String.concat ","
        (map (fun item => match item with
                          | VUndef | VNull => EmptyString
                          | _ => ToString h item
                          end) items)
  | VObj _ => "[object Object]"
  end.

(** [a + b] where one operand is a string. *)
Definition js_concat (h : host) (a b : value) : value :=
  VStr (ToString h a ++ ToString h b)%string.

(** What [new USPSError(message, err, extra)] is given; [error.js] is not
    part of the sources, so the object is kept as its arguments. *)
Record USPSError : Type := {
  message : value;
  cause : value;
  extra : value
}.

(** Modelled from the spec: [error.js], which turns the first argument of
    [USPSError] into the error's message, is missing.  The spec makes the
    message a string: the text handed in, or the stringified node when
    the fallback hands in the raw error node.  How a node is stringified
    is left to [stringify]. *)
Definition text_of (stringify : value -> string) (node : value) : string :=
  match node with
  | VStr s => s
  | other => stringify other
  end.

(** Modelled from the spec: the message of an error, as a string. *)
Definition message_text (stringify : value -> string) (e : USPSError) : string :=
  text_of stringify (message e).

(** ** Callbacks: a log of invocations, and exceptions *)

(** One invocation [callback(err, data)] of the caller's callback;
    [None] is a [null] error, [VUndef] an argument that was not passed. *)
Inductive event : Type :=
| Called (err : option USPSError) (data : value).

Definition M (A : Type) : Type := list event -> list event * result A.

Definition ret {A} (a : A) : M A := fun log => (log, Ok a).

Definition bind {A B} (m : M A) (k : A -> M B) : M B :=
  fun log =>
    match m log with
    | (log', Ok a) => k a log'
    | (log', Throw e) => (log', Throw e)
    end.

Definition lift {A} (r : result A) : M A := fun log => (log, r).

Notation "x <- m ;; k" := (bind m (fun x => k))
  (at level 61, m at next level, right associativity).

Definition callback : Type := option USPSError -> value -> M unit.

(** The caller's callback, observed. *)
Definition record : callback :=
  fun err data log => ((log ++ [Called err data])%list, Ok tt).

(** ** The constructor *)

Record usps : Type := { config : value }.

(** [config && config.server && config.userId]. *)
Definition configured (config : value) : result bool :=
  if truthy config then
    server <-? get_prop config "server";
    if truthy server then
      userId <-? get_prop config "userId";
      Ok (truthy userId)
    else Ok false
  else Ok false.

Definition usps_new (config : value) : result usps :=
  ok <-? configured config;
  if negb ok then Throw (Thrown "Error: must pass usps server url and userId")
  else
    ttl <-? get_prop config "ttl";
    config' <-? (if negb (truthy ttl)
                 then assign config "ttl" (VInt 100000)
                 else Ok config);
    Ok {| config := config' |}.

(** ** callUSPS *)

Definition context (api during : string) : value :=
  VObj [("method", VStr api); ("during", VStr during)].

(** [try { e.Description[0].trim() } catch (err) { e }] with [e] the
    root-level [result.Error]. *)
Definition root_message (e : value) : value :=
  match (d <-? get_prop e "Description";
         first <-? get_prop d "0";
         call_trim first) with
  | Ok text => text
  | Throw _ => e
  end.

(** [try { e[0].Description[0].trim() } catch (err) { e }] with [e] the
    [specificResult.Error] of the node reached. *)
Definition node_message (e : value) : value :=
  match (e0 <-? get_prop e "0";
         d <-? get_prop e0 "Description";
         first <-? get_prop d "0";
         call_trim first) with
  | Ok text => text
  | Throw _ => e
  end.

(** [walkResult]: [parts] and [specificResult] are the two variables the
    closure updates; [parts.shift()] is [undefined] on the empty list. *)
Fixpoint walkResult (parts : list string) (specificResult : value) : result value :=
  match parts with
  | [] => Ok specificResult
  | key :: parts' =>
      next <-? get_prop specificResult key;
      if is_array next
      then (first <-? get_prop next "0"; walkResult parts' first)
      else walkResult parts' next
  end.

(** The callback given to [xml2js.parseString]. *)
Definition on_parsed (api resultDotNotation : string) (cb : callback)
    (err result : value) : M unit :=
  if truthy err then
    msg <- lift (get_prop err "message") ;;
    cb (Some {| message := msg; cause := err; extra := context api "xml parse" |}) VUndef
  else
    rootError <- lift (get_prop result "Error") ;;
    if truthy rootError then
      cb (Some {| message := root_message rootError; cause := rootError;
                  extra := VUndef |}) VUndef
    else
      specificResult <- lift (walkResult (split "." resultDotNotation) result) ;;
      nodeError <- lift (get_prop specificResult "Error") ;;
      if truthy nodeError then
        cb (Some {| message := node_message nodeError; cause := nodeError;
                    extra := VUndef |}) VUndef
      else cb None specificResult.

(** The callback given to [request]. *)
Definition on_response (h : host) (api resultDotNotation : string) (cb : callback)
    (err res body : value) : M unit :=
  if truthy err then
    msg <- lift (get_prop err "message") ;;
    cb (Some {| message := msg; cause := err; extra := context api "request" |}) VUndef
  else
    let '(perr, result) := parseString h body in
    on_parsed api resultDotNotation cb perr result.

(** A call [request(opts, handler)] that has been issued. *)
Record pending : Type := {
  opts : request_opts;
  handler : value -> value -> value -> M unit
}.

Definition callUSPS (h : host) (api method resultDotNotation : string)
    (config params : value) (cb : callback) : result pending :=
  userId <-? get_prop config "userId";
  params' <-? assign params "@USERID" userId;
  xml <-? build_xml h (VObj [(method, params')]);
  server <-? get_prop config "server";
  ttl <-? get_prop config "ttl";
  Ok {| opts := {| url := server; qs_API := api; qs_XML := xml; timeout := ttl |};
        handler := on_response h api resultDotNotation cb |}.

(** The transport answers the pending call. *)
Definition complete (h : host) (p : pending) : M unit :=
  let '(err, res, body) := request h (opts p) in
  handler p err res body.

(** ** The public operations *)

(** What a method call evaluates to. *)
Inductive returned : Type :=
| Undefined
| This (self : usps).

(** [node[key][0]]. *)
Definition first_of (node : value) (key : string) : M value :=
  field <- lift (get_prop node key) ;;
  lift (get_prop field "0").

(** [node.Address1 ? node.Address1[0] : ''] *)
Definition first_or_empty (node : value) (key : string) : M value :=
  field <- lift (get_prop node key) ;;
  if truthy field then first_of node key else ret (VStr "").

(** The fields of an address, read as they are. *)
Definition field (o : obj) (key : string) : value :=
  match lookup o key with
  | Some v => v
  | None => VUndef
  end.

Definition verify_params (address : obj) : value :=
  VObj [("Address",
         VObj [("Address1", js_or (field address "street2") (VStr ""));
               ("Address2", field address "street1");
               ("City", field address "city");
               ("State", field address "state");
               ("Zip5", field address "zip");
               ("Zip4", VStr "")])].

Definition verify_done (cb : callback) : callback :=
  fun err address =>
    match err with
    | Some _ => cb err VUndef
    | None =>
        street1 <- first_of address "Address2" ;;
        street2 <- first_or_empty address "Address1" ;;
        city <- first_of address "City" ;;
        zip <- first_of address "Zip5" ;;
        state <- first_of address "State" ;;
        cb None (VObj [("street1", street1); ("street2", street2);
                       ("city", city); ("zip", zip); ("state", state)])
    end.

(** The properties [address.street1] and its siblings are read from: the
    read throws on [undefined] and [null], and a value that is no
    mapping has none of them. *)
Definition address_fields (address : value) : result obj :=
  match address with
  | VUndef | VNull => Throw TypeError
  | VObj props => Ok props
  | _ => Ok []
  end.

Definition verify (h : host) (self : usps) (address : value) (cb : callback)
  : result (pending * returned) :=
  fields <-? address_fields address;
  call <-? callUSPS h "Verify" "AddressValidateRequest"
             "AddressValidateResponse.Address" (config self)
             (verify_params fields) (verify_done cb);
  Ok (call, This self).

Definition zipCodeLookup_params (address : obj) : value :=
  VObj [("Address",
         VObj [("Address1", js_or (field address "street2") (VStr ""));
               ("Address2", field address "street1");
               ("City", field address "city");
               ("State", field address "state")])].

Definition zipCodeLookup_done (h : host) (cb : callback) : callback :=
  fun err address =>
    match err with
    | Some _ => cb err VUndef
    | None =>
        street1 <- first_of address "Address2" ;;
        street2 <- first_or_empty address "Address1" ;;
        city <- first_of address "City" ;;
        state <- first_of address "State" ;;
        zip5 <- first_of address "Zip5" ;;
        zip4 <- first_of address "Zip4" ;;
        cb None (VObj [("street1", street1); ("street2", street2);
                       ("city", city); ("state", state);
                       ("zip", js_concat h (js_concat h zip5 (VStr "-")) zip4)])
    end.

Definition zipCodeLookup (h : host) (self : usps) (address : value) (cb : callback)
  : result (pending * returned) :=
  fields <-? address_fields address;
  call <-? callUSPS h "ZipCodeLookup" "ZipCodeLookupRequest"
             "ZipCodeLookupResponse.Address" (config self)
             (zipCodeLookup_params fields) (zipCodeLookup_done h cb);
  Ok (call, This self).

Definition cityStateLookup_params (zip : value) : value :=
  VObj [("ZipCode", VObj [("Zip5", zip)])].

Definition cityStateLookup_done (cb : callback) : callback :=
  fun err address =>
    match err with
    | Some _ => cb err VUndef
    | None =>
        city <- first_of address "City" ;;
        state <- first_of address "State" ;;
        zip <- first_of address "Zip5" ;;
        cb err (VObj [("city", city); ("state", state); ("zip", zip)])
    end.

Definition cityStateLookup (h : host) (self : usps) (zip : value) (cb : callback)
  : result (pending * returned) :=
  call <-? callUSPS h "CityStateLookup" "CityStateLookupRequest"
             "CityStateLookupResponse.ZipCode" (config self)
             (cityStateLookup_params zip) (cityStateLookup_done cb);
  Ok (call, Undefined).

(** [parseInt(weight, 10) || 0] *)
Definition ozWeight (h : host) (weight : value) : number :=
  num_or (parseInt10 (ToString h weight)) (num_of_Z 0).

(** [ozWeight / 16] *)
Definition lbsWeight (h : host) (weight : value) : number :=
  num_div (ozWeight h weight) (num_of_Z 16).

Definition RateV4Request_params (h : host) (fromZip toZip weight service : value)
  : value :=
  VObj [("ID", VInt 0);
        ("Service", js_or service (VStr "STANDARD POST"));
        ("ZipOrigination", fromZip);
        ("ZipDestination", toZip);
        ("Pounds", VNum (lbsWeight h weight));
        ("Ounces", VNum (ozWeight h weight));
        ("Container", VStr "");
        ("Size", VStr "REGULAR");
        ("SpecialServices", VObj [("SpecialService", VInt 106)])].

Definition RateV4Request_done (cb : callback) : callback :=
  fun err data =>
    match err with
    | Some _ => cb err VUndef
    | None => cb err data
    end.

Definition RateV4Request (h : host) (self : usps)
    (fromZip toZip weight service : value) (cb : callback)
  : result (pending * returned) :=
  call <-? callUSPS h "RateV4" "RateV4Request" "RateV4Response" (config self)
             (RateV4Request_params h fromZip toZip weight service)
             (RateV4Request_done cb);
  Ok (call, Undefined).

(** The log of the caller's callback once the transport has answered an
    operation, and how the handlers ended. *)
Definition outcome (h : host) (op : result (pending * returned))
  : list event * result unit :=
  match op with
  | Ok (call, _) => complete h call []
  | Throw e => ([], Throw e)
  end.

(** ** Reading the outcome of an extraction *)

(** The extraction of [callUSPS] on a tree the parser handed over without
    an error, observed through the caller's callback. *)
Definition extract (api resultDotNotation : string) (tree : value)
  : list event * result unit :=
  on_parsed api resultDotNotation record VNull tree [].

(** One invocation with a value and a [null] error. *)
Definition succeeded (data : value) : list event * result unit :=
  ([Called None data], Ok tt).

(** One invocation with an error and nothing else. *)
Definition failed (e : USPSError) : list event * result unit :=
  ([Called (Some e) VUndef], Ok tt).

(** No invocation: a handler threw. *)
Definition crashed (e : exn) : list event * result unit :=
  ([], Throw e).

(** [node[key]] as a value: [undefined] where the read would throw. *)
Definition index (node : value) (key : string) : value :=
  match get_prop node key with
  | Ok v => v
  | Throw _ => VUndef
  end.

(** A sequence is replaced by its element at index 0. *)
Definition collapse (v : value) : value :=
  match v with
  | VArr items => nth 0 items VUndef
  | other => other
  end.

(** The walk as the specification words it: starting at the tree, index
    by the next key and replace a sequence by its element at index 0,
    until no key remains. *)
Definition walk_spec (keys : list string) (tree : value) : value :=
  fold_left (fun node key => collapse (index node key)) keys tree.

(** Anything but [undefined]. *)
Definition defined (v : value) : bool :=
  match v with
  | VUndef => false
  | _ => true
  end.

(** Every key of the path exists where the walk reads it. *)
Fixpoint path_exists (keys : list string) (node : value) : bool :=
  match keys with
  | [] => true
  | key :: rest =>
      match get_prop node key with
      | Ok v => defined v && path_exists rest (collapse v)
      | Throw _ => false
      end
  end.

(** The transport answered without an error, and the parser read the
    body as [tree] without an error. *)
Definition answers (h : host) (call : pending) (tree : value) : Prop :=
  exists err res body perr,
    request h (opts call) = (err, res, body) /\ truthy err = false /\
    parseString h body = (perr, tree) /\ truthy perr = false.

(** The answer to a call is one of the four errors: the transport failed,
    the body did not parse, the tree has a truthy root-level [Error], or
    the node under the result path has a truthy [Error]. *)
Definition reports_error (h : host) (path : string) (o : request_opts) : bool :=
  let '(err, _, body) := request h o in
  truthy err ||
  let '(perr, tree) := parseString h body in
  truthy perr ||
  match get_prop tree "Error" with
  | Ok rootError =>
      truthy rootError ||
      match (node <-? walkResult (split "." path) tree; get_prop node "Error") with
      | Ok nodeError => truthy nodeError
      | Throw _ => false
      end
  | Throw _ => false
  end.

(** A value whose properties can be read. *)
Definition readable (v : value) : bool :=
  match v with
  | VUndef | VNull => false
  | _ => true
  end.

(** The node [callUSPS] hands to the callback of the operation when the
    answer is no error: the node the walk reaches, when its [Error] can
    be read. *)
Definition delivered_node (h : host) (path : string) (o : request_opts)
  : option value :=
  let '(_, _, body) := request h o in
  let '(_, tree) := parseString h body in
  match (node <-? walkResult (split "." path) tree;
         _ <-? get_prop node "Error";
         Ok node) with
  | Ok node => Some node
  | Throw _ => None
  end.

(** The record address verification makes of a node, when the node has
    every field it reads. *)
Definition verify_result (node : value) : option value :=
  if readable (index node "Address2") && readable (index node "City")
     && readable (index node "Zip5") && readable (index node "State")
  then Some (VObj [("street1", index (index node "Address2") "0");
                   ("street2", if truthy (index node "Address1")
                               then index (index node "Address1") "0"
                               else VStr "");
                   ("city", index (index node "City") "0");
                   ("zip", index (index node "Zip5") "0");
                   ("state", index (index node "State") "0")])
  else None.

Definition zipCodeLookup_result (h : host) (node : value) : option value :=
  if readable (index node "Address2") && readable (index node "City")
     && readable (index node "State") && readable (index node "Zip5")
     && readable (index node "Zip4")
  then Some (VObj [("street1", index (index node "Address2") "0");
                   ("street2", if truthy (index node "Address1")
                               then index (index node "Address1") "0"
                               else VStr "");
                   ("city", index (index node "City") "0");
                   ("state", index (index node "State") "0");
                   ("zip", js_concat h
                             (js_concat h (index (index node "Zip5") "0") (VStr "-"))
                             (index (index node "Zip4") "0"))])
  else None.

Definition cityStateLookup_result (node : value) : option value :=
  if readable (index node "City") && readable (index node "State")
     && readable (index node "Zip5")
  then Some (VObj [("city", index (index node "City") "0");
                   ("state", index (index node "State") "0");
                   ("zip", index (index node "Zip5") "0")])
  else None.

(** An operation's callback, given a node that can be read, hands on the
    record [reshape] makes of it, or throws a TypeError when [reshape]
    has none. *)
Definition reshapes (done : callback) (reshape : value -> option value) : Prop :=
  forall node log,
    readable node = true ->
    done None node log =
    match reshape node with
    | Some data => ((log ++ [Called None data])%list, Ok tt)
    | None => (log, Throw TypeError)
    end.

(** Once the transport has answered a call, the callback has fired once
    with an error and no value when the answer is one of the four
    errors.  Otherwise it has fired once, with a [null] error and the
    record the operation makes of the node, when the response has the
    result path and the node every field the operation reads; when it
    lacks one, a TypeError was thrown and the callback has not fired. *)
Definition fires_once (h : host) (path : string)
    (reshape : value -> option value) (call : pending) : Prop :=
  if reports_error h path (opts call)
  then exists e, complete h call [] = failed e
  else match delivered_node h path (opts call) with
       | Some node =>
           match reshape node with
           | Some data => complete h call [] = succeeded data
           | None => complete h call [] = crashed TypeError
           end
       | None => complete h call [] = crashed TypeError
       end.

(** The tree [callUSPS] hands to the builder: one root, named after the
    request type, that holds the parameters and [@USERID]. *)
Definition envelope (method : string) (params userId : value) : value :=
  VObj [(method, match params with
                 | VObj props => VObj (set_key props "@USERID" userId)
                 | other => other
                 end)].

(** The result paths of the four operations. *)
Definition result_paths : list string :=
  ["AddressValidateResponse.Address"; "ZipCodeLookupResponse.Address";
   "CityStateLookupResponse.ZipCode"; "RateV4Response"].

(** What the constructor throws. *)
Definition refusal : exn := Thrown "Error: must pass usps server url and userId".



(** An operation's callback hands an error on as it is. *)
Definition forwards (done : callback) : Prop :=
  forall e data log, done (Some e) data log = record (Some e) VUndef log.


(** ** Trees as the parser delivers them *)

(** An own property of a mapping. *)
Definition own (node : value) (key : string) : option value :=
  match node with
  | VObj props => lookup props key
  | _ => None
  end.

(** The attributes of an element: a mapping of strings. *)
Definition attributes (v : value) : bool :=
  match v with
  | VObj props =>
      forallb (fun kv => match snd kv with
                         | VStr _ => true
                         | _ => false
                         end) props
  | _ => false
  end.

(** An element as the parser hands it over with its defaults: its text
    when it has neither child nor attribute; else a mapping that holds,
    under the name of each child element, the non-empty sequence of the
    children of that name, the attributes under [$] and the text under
    [_]. *)
Fixpoint parsed_element (v : value) : bool :=
  match v with
  | VStr _ => true
  | VObj props =>
      forallb (fun kv =>
                 let '(key, x) := kv in
                 if String.eqb key "$" then attributes x
                 else if String.eqb key "_"
                      then match x with
                           | VStr _ => true
                           | _ => false
                           end
                      else match x with
                           | VArr (first :: others) =>
                               parsed_element first && forallb parsed_element others
                           | _ => false
                           end) props
  | _ => false
  end.

(** The tree of a response: one root, and under its name the root
    element itself. *)
Definition parsed_tree (tree : value) : bool :=
  match tree with
  | VObj [(_, content)] => parsed_element content
  | _ => false
  end.

(** A key of a result path that names an element: neither the
    attributes nor the length of a text. *)
Definition path_key (key : string) : bool :=
  negb (String.eqb key "$") && negb (String.eqb key "length").

(** ** Clients, hosts and responses of the examples *)

(** A client as the constructor leaves it. *)
Definition client : usps :=
  {| config := VObj [("server", VStr "http://production.shippingapis.com/ShippingAPI.dll");
                     ("userId", VStr "123USER4567");
                     ("ttl", VInt 100000)] |}.

(** A transport that answers and a parser that reads the answer as [tree]. *)
Definition answering (tree : value) : host :=
  {| build_xml := fun _ => Ok "<xml/>";
     request := fun _ => (VNull, VObj [], VStr "<xml/>");
     parseString := fun _ => (VNull, tree);
     to_string := fun _ => "1e+21";
     fraction_digits := fun _ => "5" |}.

(** A transport that fails. *)
Definition unreachable_host : host :=
  {| build_xml := fun _ => Ok "<xml/>";
     request := fun _ => (VObj [("message", VStr "ETIMEDOUT")], VUndef, VUndef);
     parseString := fun _ => (VNull, VUndef);
     to_string := fun _ => "1e+21";
     fraction_digits := fun _ => "5" |}.

(** A tree with singleton sequences along ["A.B"] and the scalar ["x"]
    at [tree.A[0].B[0]]. *)
Definition tree_A_B : value :=
  VObj [("A", VArr [VObj [("B", VArr [VStr "x"])]])].

(** The response to a request the service rejects as a whole. *)
Definition tree_root_error : value :=
  VObj [("Error", VObj [("Number", VArr [VStr "80040B1A"]);
                        ("Description", VArr [VStr "Authorization failure."])])].

(** An empty [Error] root, as the parser reads it. *)
Definition tree_empty_error : value := VObj [("Error", VStr "")].

(** An address node that carries an error, as the service sends it. *)
Definition tree_node_error : value :=
  VObj [("AddressValidateResponse",
         VObj [("Address",
                VArr [VObj [("Error",
                             VArr [VObj [("Description",
                                          VArr [VStr " Address Not Found.  "])]])]])])].

(** An address without [street2]. *)
Definition address_no_street2 : obj :=
  [("street1", VStr "322 3rd st."); ("city", VStr "San Francisco");
   ("state", VStr "CA"); ("zip", VStr "94103")].

(** The [ZipCode] element of a city/state answer. *)
Definition zip_code_node : value :=
  VObj [("City", VArr [VStr "DENVER"]); ("State", VArr [VStr "CO"]);
        ("Zip5", VArr [VStr "80202"])].

(** A parser that fails on the body and still hands over a tree. *)
Definition unparsable_host : host :=
  {| build_xml := fun _ => Ok "<xml/>";
     request := fun _ => (VNull, VObj [], VStr "<Error>");
     parseString :=
       fun _ => (VObj [("message", VStr "Unclosed root tag")],
                 VObj [("Error", VObj [("Description", VArr [VStr "ignored"])])]);
     to_string := fun _ => "1e+21";
     fraction_digits := fun _ => "5" |}.

(** A response with two addresses. *)
Definition tree_two_addresses : value :=
  VObj [("AddressValidateResponse",
         VObj [("Address", VArr [VObj [("City", VArr [VStr "DENVER"])];
                                 VObj [("City", VArr [VStr "BOULDER"])]])])].

(** An address of the service without [Address1] and without [Zip4]. *)
Definition node_without_zip4 : value :=
  VObj [("Address2", VArr [VStr "322 3RD ST"]); ("City", VArr [VStr "SAN FRANCISCO"]);
        ("State", VArr [VStr "CA"]); ("Zip5", VArr [VStr "94103"])].


(** * Properties *)

(** ** The extraction *)

Lemma get_prop_first (v : value) :
  is_array v = true -> get_prop v "0" = Ok (collapse v).
Proof.
  destruct v; simpl; try discriminate.
  intros _. reflexivity.
Qed.

Lemma collapse_not_array (v : value) :
  is_array v = false -> collapse v = v.
Proof.
  destruct v; simpl; try reflexivity. discriminate.
Qed.

Lemma walkResult_step (key : string) (keys : list string) (node v : value) :
  get_prop node key = Ok v ->
  walkResult (key :: keys) node = walkResult keys (collapse v).
Proof.
  intros Hget. simpl. rewrite Hget. simpl.
  destruct (is_array v) eqn:Harr.
  - rewrite (get_prop_first v Harr). reflexivity.
  - rewrite (collapse_not_array v Harr). reflexivity.
Qed.

Lemma walkResult_spec (keys : list string) :
  forall tree, path_exists keys tree = true ->
               walkResult keys tree = Ok (walk_spec keys tree).
Proof.
  induction keys as [|key rest IH]; intros tree Hex.
  - reflexivity.
  - simpl in Hex.
    destruct (get_prop tree key) as [v|e] eqn:Hget; [|discriminate].
    apply andb_prop in Hex. destruct Hex as [_ Hrest].
    rewrite (walkResult_step key rest tree v Hget).
    rewrite (IH _ Hrest).
    unfold walk_spec. simpl. unfold index. rewrite Hget. reflexivity.
Qed.

Lemma split_not_nil_list (sep : ascii) (s : string) : split sep s <> [].
Proof.
  destruct s as [|c rest]; simpl; [discriminate|].
  destruct (Ascii.eqb c sep); [discriminate|].
  destruct (split sep rest); discriminate.
Qed.

Lemma extract_root_error (api path : string) (tree rootError : value) :
  get_prop tree "Error" = Ok rootError ->
  truthy rootError = true ->
  extract api path tree =
  failed {| message := root_message rootError; cause := rootError; extra := VUndef |}.
Proof.
  intros Hget Htrue.
  unfold extract, on_parsed, bind, lift. simpl.
  rewrite Hget, Htrue. reflexivity.
Qed.

Lemma extract_walk (api path : string) (tree rootError : value) :
  get_prop tree "Error" = Ok rootError ->
  truthy rootError = false ->
  extract api path tree =
  match walkResult (split "." path) tree with
  | Ok node =>
      match get_prop node "Error" with
      | Ok nodeError =>
          if truthy nodeError
          then failed {| message := node_message nodeError; cause := nodeError;
                         extra := VUndef |}
          else succeeded node
      | Throw e => crashed e
      end
  | Throw e => crashed e
  end.
Proof.
  intros Hget Hfalse.
  unfold extract, on_parsed, bind, lift. simpl.
  rewrite Hget, Hfalse.
  destruct (walkResult (split "." path) tree) as [node|e]; [|reflexivity].
  destruct (get_prop node "Error") as [nodeError|e]; [|reflexivity].
  destruct (truthy nodeError); reflexivity.
Qed.

(** C1, as amended: when the root-level [Error] of the parsed tree is
    truthy, the extraction reports one error whatever the result path;
    its message is [Error.Description[0]] trimmed when that is a string,
    and the raw [Error] node (stringified, unless it is a string already)
    otherwise. *)
Theorem root_level_error_message
    (stringify : value -> string) (api path : string) (tree rootError : value) :
  get_prop tree "Error" = Ok rootError ->
  truthy rootError = true ->
  exists e,
    extract api path tree = failed e /\
    cause e = rootError /\
    match (d <-? get_prop rootError "Description"; get_prop d "0") with
    | Ok (VStr s) =>
        message e = VStr (trim s) /\ message_text stringify e = trim s
    | _ =>
        message e = rootError /\
        message_text stringify e = text_of stringify rootError
    end.
Proof.
  intros Hget Htrue.
  eexists. split; [apply (extract_root_error api path tree rootError Hget Htrue)|].
  split; [reflexivity|].
  unfold message_text, root_message. simpl.
  destruct (get_prop rootError "Description") as [d|e1]; simpl.
  - destruct (get_prop d "0") as [first|e2]; simpl.
    + destruct first; simpl; split; reflexivity.
    + split; reflexivity.
  - split; reflexivity.
Qed.

(** The tree of the specification's example: [Error.Description] is
    [[" Bad input "]], and the message is exactly ["Bad input"]. *)
Lemma root_level_error_message_bad_input :
  exists e,
    extract "Verify" "AddressValidateResponse.Address"
      (VObj [("Error", VObj [("Description", VArr [VStr " Bad input "])])])
    = failed e /\
    message e = VStr "Bad input" /\
    message_text (fun _ => "[object Object]") e = "Bad input".
Proof.
  destruct (root_level_error_message (fun _ => "[object Object]")
              "Verify" "AddressValidateResponse.Address"
              (VObj [("Error", VObj [("Description", VArr [VStr " Bad input "])])])
              (VObj [("Description", VArr [VStr " Bad input "])])
              eq_refl eq_refl) as [e [Hout [_ Hmsg]]].
  exists e. split; [exact Hout|]. exact Hmsg.
Defined.

(** C1 as stated fails: a tree that has the root-level key [Error] with
    an empty value is not reported; with the result path of address
    verification the walk throws and nothing is reported at all. *)
Lemma empty_root_error_is_not_reported :
  get_prop (VObj [("Error", VStr "")]) "Error" = Ok (VStr "") /\
  extract "Verify" "AddressValidateResponse.Address" (VObj [("Error", VStr "")])
  = crashed TypeError /\
  ~ (exists e,
        extract "Verify" "AddressValidateResponse.Address"
          (VObj [("Error", VStr "")]) = failed e).
Proof.
  split; [reflexivity|]. split; [reflexivity|].
  intros [e He]. discriminate He.
Qed.

(** A scalar carries no [Error]. *)
Lemma scalar_has_no_error (s : string) : get_prop (VStr s) "Error" = Ok VUndef.
Proof. reflexivity. Qed.

Lemma walkResult_A_B (tree a b : value) :
  get_prop tree "A" = Ok (VArr [a]) ->
  get_prop a "B" = Ok (VArr [b]) ->
  walkResult (split "." "A.B") tree = Ok b.
Proof.
  intros HA HB.
  change (split "." "A.B") with ["A"; "B"].
  rewrite (walkResult_step "A" ["B"] tree _ HA). simpl collapse.
  rewrite (walkResult_step "B" [] a _ HB). reflexivity.
Qed.

(** C2: without a root-level error and with a path whose keys all exist,
    the walk over the keys of the split path is the repeated "index by
    the next key, replace a sequence by its element at index 0", and the
    node it reaches is the result unless that node carries an error of
    its own; with singleton sequences along ["A.B"] the node is
    [tree.A[0].B[0]], which is the result when it is a scalar. *)
Theorem walk_follows_dotted_path (api path : string) (tree : value) :
  get_prop tree "Error" = Ok VUndef ->
  path_exists (split "." path) tree = true ->
  walkResult (split "." path) tree = Ok (walk_spec (split "." path) tree) /\
  (forall nodeError,
      get_prop (walk_spec (split "." path) tree) "Error" = Ok nodeError ->
      truthy nodeError = false ->
      extract api path tree = succeeded (walk_spec (split "." path) tree)) /\
  (forall a b,
      get_prop tree "A" = Ok (VArr [a]) ->
      get_prop a "B" = Ok (VArr [b]) ->
      walkResult (split "." "A.B") tree = Ok b /\
      walk_spec (split "." "A.B") tree = b /\
      (forall s, b = VStr s -> extract api "A.B" tree = succeeded b)).
Proof.
  intros Hroot Hex.
  pose proof (walkResult_spec _ _ Hex) as Hwalk.
  split; [exact Hwalk|]. split.
  - intros nodeError Hnode Hfalse.
    rewrite (extract_walk api path tree VUndef Hroot eq_refl).
    rewrite Hwalk, Hnode, Hfalse. reflexivity.
  - intros a b HA HB.
    pose proof (walkResult_A_B tree a b HA HB) as HAB.
    split; [exact HAB|]. split.
    + unfold walk_spec, index. simpl. rewrite HA. simpl. rewrite HB. reflexivity.
    + intros s ->.
      rewrite (extract_walk api "A.B" tree VUndef Hroot eq_refl).
      rewrite HAB, scalar_has_no_error. reflexivity.
Qed.

Lemma walk_follows_dotted_path_A_B :
  walkResult (split "." "A.B") tree_A_B = Ok (VStr "x") /\
  extract "Verify" "A.B" tree_A_B = succeeded (VStr "x").
Proof.
  destruct (walk_follows_dotted_path "Verify" "A.B" tree_A_B eq_refl eq_refl)
    as [_ [_ HAB]].
  destruct (HAB (VObj [("B", VArr [VStr "x"])]) (VStr "x") eq_refl eq_refl)
    as [Hwalk [_ Hout]].
  split; [exact Hwalk|]. exact (Hout "x" eq_refl).
Defined.

(** C3, as amended: a truthy root-level [Error] decides the outcome.  The
    extraction reports that error for every result path, and the outcome
    is the same on every tree with the same root-level [Error]: neither
    the walk nor the error of the node it would reach plays a part. *)
Theorem root_level_error_takes_precedence
    (api path : string) (tree rootError : value) :
  get_prop tree "Error" = Ok rootError ->
  truthy rootError = true ->
  extract api path tree =
  failed {| message := root_message rootError; cause := rootError; extra := VUndef |} /\
  (forall path', extract api path' tree = extract api path tree) /\
  (forall tree', get_prop tree' "Error" = Ok rootError ->
                 extract api path tree' = extract api path tree).
Proof.
  intros Hget Htrue.
  split; [apply extract_root_error; assumption|]. split.
  - intros path'.
    rewrite (extract_root_error api path' tree rootError Hget Htrue).
    rewrite (extract_root_error api path tree rootError Hget Htrue). reflexivity.
  - intros tree' Hget'.
    rewrite (extract_root_error api path tree' rootError Hget' Htrue).
    rewrite (extract_root_error api path tree rootError Hget Htrue). reflexivity.
Qed.

Lemma root_level_error_takes_precedence_example :
  extract "RateV4" "RateV4Response" tree_root_error =
  failed {| message := VStr "Authorization failure.";
            cause := VObj [("Number", VArr [VStr "80040B1A"]);
                           ("Description", VArr [VStr "Authorization failure."])];
            extra := VUndef |}.
Proof.
  exact (proj1 (root_level_error_takes_precedence "RateV4" "RateV4Response"
                  tree_root_error
                  (VObj [("Number", VArr [VStr "80040B1A"]);
                         ("Description", VArr [VStr "Authorization failure."])])
                  eq_refl eq_refl)).
Defined.

(** C3 as stated fails: an empty [Error] root, which the parser
    reads as the tree with the key [Error] and the empty string, is not
    reported.  With the result path of the rate request the walk runs and
    ends on [undefined], and the node-level check runs and throws on it;
    with the path of the city/state lookup the walk itself throws.  In
    both operations the callback never fires. *)
Lemma empty_root_error_reaches_the_walk :
  parsed_tree tree_empty_error = true /\
  own tree_empty_error "Error" = Some (VStr "") /\
  walkResult (split "." "RateV4Response") tree_empty_error = Ok VUndef /\
  get_prop VUndef "Error" = Throw TypeError /\
  walkResult (split "." "CityStateLookupResponse.ZipCode") tree_empty_error
  = Throw TypeError /\
  outcome (answering tree_empty_error)
    (RateV4Request (answering tree_empty_error) client (VStr "94103")
       (VStr "80202") (VStr "40") VUndef record)
  = crashed TypeError /\
  outcome (answering tree_empty_error)
    (cityStateLookup (answering tree_empty_error) client (VStr "80202") record)
  = crashed TypeError.
Proof. repeat split; reflexivity. Qed.

(** Without a truthy root-level error, the node the walk reaches decides:
    a truthy [Error] of the node is reported, with
    [Error[0].Description[0]] trimmed as message when that is a string
    and the raw [Error] otherwise; a node without a truthy [Error] is the
    result. *)
Lemma extract_at_node
    (stringify : value -> string) (api path : string)
    (tree rootError node nodeError : value) :
  get_prop tree "Error" = Ok rootError ->
  truthy rootError = false ->
  walkResult (split "." path) tree = Ok node ->
  get_prop node "Error" = Ok nodeError ->
  if truthy nodeError then
    exists e,
      extract api path tree = failed e /\
      cause e = nodeError /\
      match (e0 <-? get_prop nodeError "0";
             d <-? get_prop e0 "Description";
             get_prop d "0") with
      | Ok (VStr s) =>
          message e = VStr (trim s) /\ message_text stringify e = trim s
      | _ =>
          message e = nodeError /\
          message_text stringify e = text_of stringify nodeError
      end
  else extract api path tree = succeeded node.
Proof.
  intros Hroot Hfalse Hwalk Hnode.
  rewrite (extract_walk api path tree rootError Hroot Hfalse), Hwalk, Hnode.
  destruct (truthy nodeError); [|reflexivity].
  eexists. split; [reflexivity|]. split; [reflexivity|].
  unfold message_text, node_message. simpl.
  destruct (get_prop nodeError "0") as [e0|x0]; simpl; [|split; reflexivity].
  destruct (get_prop e0 "Description") as [d|x1]; simpl; [|split; reflexivity].
  destruct (get_prop d "0") as [first|x2]; simpl; [|split; reflexivity].
  destruct first; simpl; split; reflexivity.
Qed.

Lemma lookup_In (props : obj) (key : string) (x : value) :
  lookup props key = Some x -> In (key, x) props.
Proof.
  induction props as [|[k v] rest IH]; simpl; [discriminate|].
  destruct (String.eqb k key) eqn:Hk.
  - intros Hx. injection Hx as <-. apply String.eqb_eq in Hk. subst k.
    left. reflexivity.
  - intros Hx. right. exact (IH Hx).
Qed.

(** What a mapping of the parser holds under a key that is not [$]: the
    text under [_], a non-empty sequence of elements under any other. *)
Lemma parsed_element_child (props : obj) (key : string) (x : value) :
  parsed_element (VObj props) = true ->
  lookup props key = Some x ->
  String.eqb key "$" = false ->
  (exists s, x = VStr s) \/
  (exists first others,
      x = VArr (first :: others) /\ parsed_element first = true).
Proof.
  intros Hparsed Hlookup Hkey.
  cbn [parsed_element] in Hparsed.
  rewrite forallb_forall in Hparsed.
  specialize (Hparsed (key, x) (lookup_In props key x Hlookup)).
  cbn beta iota in Hparsed. rewrite Hkey in Hparsed.
  destruct (String.eqb key "_").
  - destruct x; try discriminate. left. eexists. reflexivity.
  - destruct x as [| | | | |items|]; try discriminate.
    destruct items as [|first others]; [discriminate|].
    apply andb_prop in Hparsed. destruct Hparsed as [Hfirst _].
    right. exists first, others. split; [reflexivity|exact Hfirst].
Qed.

(** A step of the walk from an element, along a key that names an
    element, ends on an element or on [undefined]. *)
Lemma walk_step_in_element (node v : value) (key : string) :
  parsed_element node = true ->
  path_key key = true ->
  get_prop node key = Ok v ->
  collapse v = VUndef \/ parsed_element (collapse v) = true.
Proof.
  intros Hnode Hkey Hget.
  unfold path_key in Hkey. apply andb_prop in Hkey. destruct Hkey as [Hattr Hlen].
  apply negb_true_iff in Hattr. apply negb_true_iff in Hlen.
  destruct node; try discriminate.
  - simpl in Hget.
    destruct (index_of_key key) as [i|].
    + destruct (String.get i s); injection Hget as <-; [right|left]; reflexivity.
    + rewrite Hlen in Hget. injection Hget as <-. left. reflexivity.
  - simpl in Hget.
    destruct (lookup props key) as [x|] eqn:Hlookup.
    + injection Hget as <-.
      destruct (parsed_element_child props key x Hnode Hlookup Hattr)
        as [[s ->] | [first [others [-> Hfirst]]]].
      * right. reflexivity.
      * right. exact Hfirst.
    + injection Hget as <-. left. reflexivity.
Qed.

Lemma walk_in_element (keys : list string) :
  forall start node,
    start = VUndef \/ parsed_element start = true ->
    forallb path_key keys = true ->
    walkResult keys start = Ok node ->
    node = VUndef \/ parsed_element node = true.
Proof.
  induction keys as [|key rest IH]; intros start node Hstart Hkeys Hwalk.
  - simpl in Hwalk. injection Hwalk as <-. exact Hstart.
  - simpl in Hkeys. apply andb_prop in Hkeys. destruct Hkeys as [Hkey Hrest].
    destruct Hstart as [-> | Hstart]; [discriminate|].
    destruct (get_prop start key) as [v|e] eqn:Hget;
      [|simpl in Hwalk; rewrite Hget in Hwalk; discriminate].
    rewrite (walkResult_step key rest start v Hget) in Hwalk.
    exact (IH (collapse v) node
              (walk_step_in_element start v key Hstart Hkey Hget) Hrest Hwalk).
Qed.

(** In the tree of a response, along keys that name elements, the walk
    ends on an element of the response or on [undefined]. *)
Lemma walk_in_parsed_tree (keys : list string) (tree node : value) :
  parsed_tree tree = true ->
  forallb path_key keys = true ->
  keys <> [] ->
  walkResult keys tree = Ok node ->
  node = VUndef \/ parsed_element node = true.
Proof.
  intros Htree Hkeys Hne Hwalk.
  destruct keys as [|key rest]; [contradiction|].
  destruct tree as [| | | | | |props]; try discriminate.
  destruct props as [|[root content] more]; [discriminate|].
  destruct more; [|discriminate].
  simpl in Htree.
  simpl in Hkeys. apply andb_prop in Hkeys. destruct Hkeys as [_ Hrest].
  assert (Hget : exists v, get_prop (VObj [(root, content)]) key = Ok v /\
                           (collapse v = VUndef \/ parsed_element (collapse v) = true)).
  { simpl. destruct (String.eqb root key).
    - exists content. split; [reflexivity|]. right.
      destruct content; try discriminate; exact Htree.
    - exists VUndef. split; [reflexivity|]. left. reflexivity. }
  destruct Hget as [v [Hget Hv]].
  rewrite (walkResult_step key rest _ v Hget) in Hwalk.
  exact (walk_in_element rest (collapse v) node Hv Hrest Hwalk).
Qed.

Lemma get_prop_own (node : value) (key : string) :
  parsed_element node = true ->
  path_key key = true ->
  index_of_key key = None ->
  get_prop node key = Ok match own node key with
                         | Some x => x
                         | None => VUndef
                         end.
Proof.
  intros Hnode Hkey Hindex.
  unfold path_key in Hkey. apply andb_prop in Hkey. destruct Hkey as [_ Hlen].
  apply negb_true_iff in Hlen.
  destruct node; try discriminate; simpl.
  - rewrite Hindex, Hlen. reflexivity.
  - destruct (lookup props key); reflexivity.
Qed.

(** C4: in the tree of a response without root-level [Error], when the
    walk along a path of element names reaches a node: if the node
    contains an [Error], the callback fires with a node-level error
    whose message is [Error[0].Description[0]] trimmed, or the raw
    [Error] node (stringified) when that shape is absent; otherwise the
    node is returned as the result. *)
Theorem node_level_error_or_success
    (stringify : value -> string) (api path : string) (tree node : value) :
  parsed_tree tree = true ->
  own tree "Error" = None ->
  forallb path_key (split "." path) = true ->
  walkResult (split "." path) tree = Ok node ->
  node <> VUndef ->
  match own node "Error" with
  | Some nodeError =>
      exists e,
        extract api path tree = failed e /\
        cause e = nodeError /\
        match (e0 <-? get_prop nodeError "0";
               d <-? get_prop e0 "Description";
               get_prop d "0") with
        | Ok (VStr s) =>
            message e = VStr (trim s) /\ message_text stringify e = trim s
        | _ =>
            message e = nodeError /\
            message_text stringify e = text_of stringify nodeError
        end
  | None => extract api path tree = succeeded node
  end.
Proof.
  intros Htree Hroot Hkeys Hwalk Hdefined.
  assert (Hnode : parsed_element node = true).
  { destruct (walk_in_parsed_tree _ tree node Htree Hkeys
                (split_not_nil_list "." path) Hwalk) as [Hundef | Hnode];
      [contradiction|exact Hnode]. }
  assert (Hrootget : get_prop tree "Error" = Ok VUndef).
  { destruct tree; try discriminate. simpl in *. rewrite Hroot. reflexivity. }
  pose proof (get_prop_own node "Error" Hnode eq_refl eq_refl) as Hget.
  pose proof (extract_at_node stringify api path tree VUndef node _
                Hrootget eq_refl Hwalk Hget) as Hat.
  destruct (own node "Error") as [nodeError|] eqn:Hown.
  - destruct node as [| | | | | |props]; try discriminate.
    simpl in Hown.
    destruct (parsed_element_child props "Error" nodeError Hnode Hown eq_refl)
      as [[s ->] | [first [others [-> _]]]].
    + cbn [parsed_element] in Hnode. rewrite forallb_forall in Hnode.
      specialize (Hnode ("Error", VStr s) (lookup_In props "Error" _ Hown)).
      discriminate Hnode.
    + exact Hat.
  - exact Hat.
Qed.

Lemma node_level_error_or_success_not_found :
  exists e,
    extract "Verify" "AddressValidateResponse.Address" tree_node_error = failed e /\
    message_text (fun _ => "[object Object]") e = "Address Not Found.".
Proof.
  assert (Hdefined : VObj [("Error",
                            VArr [VObj [("Description",
                                         VArr [VStr " Address Not Found.  "])]])]
                     <> VUndef) by discriminate.
  destruct (node_level_error_or_success (fun _ => "[object Object]")
              "Verify" "AddressValidateResponse.Address" tree_node_error
              (VObj [("Error",
                      VArr [VObj [("Description",
                                   VArr [VStr " Address Not Found.  "])]])])
              eq_refl eq_refl eq_refl eq_refl Hdefined)
    as [e [Hout [_ [_ Htext]]]].
  exists e. split; [exact Hout|exact Htext].
Defined.

(** ** From an operation to the caller's callback *)

Lemma callUSPS_handler (h : host) (api method path : string)
    (config params : value) (cb : callback) (call : pending) :
  callUSPS h api method path config params cb = Ok call ->
  handler call = on_response h api path cb /\ qs_API (opts call) = api.
Proof.
  unfold callUSPS. intros Hcall.
  destruct (get_prop config "userId") as [userId|]; simpl in Hcall; [|discriminate].
  destruct (assign params "@USERID" userId) as [params'|]; simpl in Hcall;
    [|discriminate].
  destruct (build_xml h (VObj [(method, params')])) as [xml|]; simpl in Hcall;
    [|discriminate].
  destruct (get_prop config "server") as [server|]; simpl in Hcall; [|discriminate].
  destruct (get_prop config "ttl") as [ttl|]; simpl in Hcall; [|discriminate].
  injection Hcall as <-. split; reflexivity.
Qed.

(** An operation that went through [callUSPS] hands [request] the
    handler of its result path and of its own callback. *)
Lemma operation_handler (h : host) (api method path : string)
    (config params : value) (cb : callback) (ret : returned)
    (call : pending) (r : returned) :
  (call' <-? callUSPS h api method path config params cb; Ok (call', ret))
  = Ok (call, r) ->
  handler call = on_response h api path cb /\ r = ret.
Proof.
  intros Hop.
  destruct (callUSPS h api method path config params cb) as [call'|] eqn:Hcall;
    simpl in Hop; [|discriminate].
  injection Hop as <- <-.
  split; [|reflexivity].
  exact (proj1 (callUSPS_handler _ _ _ _ _ _ _ _ Hcall)).
Qed.


Lemma zipCodeLookup_handler (h : host) (self : usps) (address : value)
    (cb : callback) (call : pending) (r : returned) :
  zipCodeLookup h self address cb = Ok (call, r) ->
  handler call =
  on_response h "ZipCodeLookup" "ZipCodeLookupResponse.Address"
    (zipCodeLookup_done h cb) /\
  r = This self.
Proof.
  unfold zipCodeLookup. intros Hop.
  destruct (address_fields address) as [fields|]; [|discriminate].
  exact (operation_handler _ _ _ _ _ _ _ _ _ _ Hop).
Qed.

Lemma complete_answered (h : host) (api path : string) (cb : callback)
    (call : pending) (tree : value) (log : list event) :
  handler call = on_response h api path cb ->
  answers h call tree ->
  complete h call log = on_parsed api path cb VNull tree log.
Proof.
  intros Hhandler (err & res & body & perr & Hreq & Herr & Hparse & Hperr).
  unfold complete. rewrite Hreq, Hhandler.
  unfold on_response. rewrite Herr, Hparse.
  unfold on_parsed. rewrite Hperr. reflexivity.
Qed.

Lemma answering_answers (tree : value) (call : pending) :
  answers (answering tree) call tree.
Proof. exists VNull, (VObj []), (VStr "<xml/>"), VNull. repeat split. Qed.

(** ** Address verification *)



(** ** City and state of a zip code *)

(** C8: when [CityStateLookupResponse.ZipCode] of the response is
    [{City:["DENVER"], State:["CO"], Zip5:["80202"]}], be it the element
    itself or the sequence of one the parser makes of it, the callback
    receives exactly [{city:"DENVER", state:"CO", zip:"80202"}]. *)
Theorem cityStateLookup_denver
    (h : host) (self : usps) (zip : value) (call : pending) (r : returned)
    (tree : value) :
  cityStateLookup h self zip record = Ok (call, r) ->
  tree = VObj [("CityStateLookupResponse", VObj [("ZipCode", zip_code_node)])] \/
  tree = VObj [("CityStateLookupResponse", VObj [("ZipCode", VArr [zip_code_node])])] ->
  answers h call tree ->
  complete h call [] =
  succeeded (VObj [("city", VStr "DENVER"); ("state", VStr "CO");
                   ("zip", VStr "80202")]).
Proof.
  intros Hop Htree Hans.
  destruct (operation_handler _ _ _ _ _ _ _ _ _ _ Hop) as [Hhandler _].
  rewrite (complete_answered _ _ _ _ _ _ _ Hhandler Hans).
  destruct Htree as [-> | ->]; reflexivity.
Qed.

Lemma cityStateLookup_denver_example :
  exists call,
    cityStateLookup
      (answering (VObj [("CityStateLookupResponse",
                         VObj [("ZipCode", VArr [zip_code_node])])]))
      client (VStr "80202") record = Ok (call, Undefined) /\
    complete
      (answering (VObj [("CityStateLookupResponse",
                         VObj [("ZipCode", VArr [zip_code_node])])]))
      call [] =
    succeeded (VObj [("city", VStr "DENVER"); ("state", VStr "CO");
                     ("zip", VStr "80202")]).
Proof.
  eexists. split; [reflexivity|].
  refine (cityStateLookup_denver
            (answering (VObj [("CityStateLookupResponse",
                               VObj [("ZipCode", VArr [zip_code_node])])]))
            client (VStr "80202") _ Undefined _
            eq_refl (or_intror eq_refl) _).
  apply answering_answers.
Defined.

(** ** The weight of a rate request *)




Lemma digits_value_prefix (digits rest : string) (c : ascii) :
  all_digits digits = true ->
  digit_of c = None ->
  forall acc,
    digits_value acc (digits ++ String c rest)%string = digits_value acc digits.
Proof.
  intros Hall Hc.
  induction digits as [|d ds IH]; intros acc; simpl.
  - rewrite Hc. reflexivity.
  - simpl in Hall. destruct (digit_of d); [|discriminate].
    apply IH. exact Hall.
Qed.

Lemma parseInt10_of_digit (d : ascii) (s : string) (n : N) :
  digit_of d = Some n ->
  parseInt10 (String d s) =
  match round_binary64 (Z.of_N (digits_value 0 (String d s))) with
  | Some m => num_of_Z m
  | None => Inf false
  end.
Proof.
  intros Hd.
  destruct d as [[] [] [] [] [] [] [] []]; vm_compute in Hd; try discriminate;
    reflexivity.
Qed.




























(** ** Construction *)

Lemma truthy_get_prop (v : value) (key : string) :
  truthy v = true -> get_prop v key = Ok (index v key).
Proof.
  intros Htrue. unfold index.
  destruct (get_prop v key) as [x|e] eqn:Hget; [reflexivity|].
  destruct v; simpl in Htrue, Hget; try discriminate.
  - destruct (index_of_key key) as [i|].
    + destruct (String.get i s); discriminate.
    + destruct (String.eqb key "length"); discriminate.
  - destruct (index_of_key key) as [i|]; [discriminate|].
    destruct (String.eqb key "length"); discriminate.
  - destruct (lookup props key); discriminate.
Qed.

Lemma configured_spec (c : value) :
  configured c =
  Ok (truthy c && truthy (index c "server") && truthy (index c "userId")).
Proof.
  unfold configured.
  destruct (truthy c) eqn:Hc; [|reflexivity].
  rewrite (truthy_get_prop c "server" Hc). simpl.
  destruct (truthy (index c "server")); [|reflexivity].
  rewrite (truthy_get_prop c "userId" Hc). reflexivity.
Qed.

(** Only an object has a truthy [server]. *)
Lemma truthy_server_object (c : value) :
  truthy (index c "server") = true -> exists props, c = VObj props.
Proof.
  destruct c; simpl; try discriminate.
  intros _. eexists. reflexivity.
Qed.

Lemma lookup_set_key_same (props : obj) (key : string) (v : value) :
  lookup (set_key props key v) key = Some v.
Proof.
  induction props as [|[k x] rest IH]; simpl.
  - rewrite String.eqb_refl. reflexivity.
  - destruct (String.eqb k key) eqn:Hk; simpl; rewrite Hk; [reflexivity|exact IH].
Qed.

Lemma lookup_set_key_other (props : obj) (key key' : string) (v : value) :
  String.eqb key key' = false ->
  lookup (set_key props key v) key' = lookup props key'.
Proof.
  intros Hne.
  induction props as [|[k x] rest IH]; simpl.
  - rewrite Hne. reflexivity.
  - destruct (String.eqb k key) eqn:Hk; simpl.
    + apply String.eqb_eq in Hk. subst k. rewrite Hne. reflexivity.
    + destruct (String.eqb k key'); [reflexivity|exact IH].
Qed.

Lemma usps_new_ok (c : value) :
  truthy c && truthy (index c "server") && truthy (index c "userId") = true ->
  exists props,
    c = VObj props /\
    usps_new c =
    Ok {| config := if truthy (index c "ttl") then c
                    else VObj (set_key props "ttl" (VInt 100000)) |}.
Proof.
  intros Hok.
  apply andb_prop in Hok. destruct Hok as [Hok Huser].
  apply andb_prop in Hok. destruct Hok as [Hc Hserver].
  destruct (truthy_server_object c Hserver) as [props ->].
  exists props. split; [reflexivity|].
  unfold usps_new. rewrite configured_spec, Hc, Hserver, Huser.
  cbn [andb negb rbind].
  rewrite (truthy_get_prop (VObj props) "ttl" eq_refl).
  cbn [rbind].
  destruct (truthy (index (VObj props) "ttl")); reflexivity.
Qed.

Lemma usps_new_refused (c : value) :
  truthy c && truthy (index c "server") && truthy (index c "userId") = false ->
  usps_new c = Throw refusal.
Proof.
  intros Hno. unfold usps_new. rewrite configured_spec, Hno. reflexivity.
Qed.

(** C7, as amended: construction throws, before a client exists on which
    a call could be made, exactly when the configuration, its [server] or
    its [userId] is falsy: missing, or present and empty (or zero); in
    particular when either is missing.  A client that is constructed
    keeps [server] and [userId], and its [ttl] is 100000 when none was
    supplied (or a falsy one) and the supplied one otherwise. *)
Theorem construction_requires_server_and_userId (c : value) :
  (usps_new c = Throw refusal <->
   truthy c && truthy (index c "server") && truthy (index c "userId") = false) /\
  (index c "server" = VUndef \/ index c "userId" = VUndef ->
   usps_new c = Throw refusal) /\
  ((exists self, usps_new c = Ok self) \/ usps_new c = Throw refusal) /\
  (forall self,
      usps_new c = Ok self ->
      index (config self) "server" = index c "server" /\
      index (config self) "userId" = index c "userId" /\
      (index c "ttl" = VUndef -> index (config self) "ttl" = VInt 100000) /\
      (truthy (index c "ttl") = false -> index (config self) "ttl" = VInt 100000) /\
      (truthy (index c "ttl") = true -> config self = c)).
Proof.
  destruct (truthy c && truthy (index c "server") && truthy (index c "userId"))
    eqn:Hok.
  - destruct (usps_new_ok c Hok) as [props [-> Hnew]].
    split; [|split; [|split]].
    + rewrite Hnew. split; discriminate.
    + intros [Hmiss | Hmiss]; rewrite Hmiss in Hok; simpl in Hok;
        try rewrite andb_false_r in Hok; discriminate.
    + left. eexists. exact Hnew.
    + intros self Hself. rewrite Hnew in Hself. injection Hself as <-.
      cbn [config].
      assert (Hdefault :
                truthy (index (VObj props) "ttl") = false ->
                index (if truthy (index (VObj props) "ttl") then VObj props
                       else VObj (set_key props "ttl" (VInt 100000))) "ttl"
                = VInt 100000).
      { intros Hfalse. rewrite Hfalse. unfold index. simpl.
        rewrite lookup_set_key_same. reflexivity. }
      destruct (truthy (index (VObj props) "ttl")) eqn:Httl.
      * repeat split; try reflexivity.
        -- intros Hundef. rewrite Hundef in Httl. discriminate.
        -- discriminate.
      * repeat split.
        -- unfold index. simpl.
           rewrite (lookup_set_key_other props "ttl" "server" _ eq_refl).
           reflexivity.
        -- unfold index. simpl.
           rewrite (lookup_set_key_other props "ttl" "userId" _ eq_refl).
           reflexivity.
        -- intros _. exact (Hdefault eq_refl).
        -- intros _. exact (Hdefault eq_refl).
        -- discriminate.
  - pose proof (usps_new_refused c Hok) as Hnew.
    split; [|split; [|split]].
    + split; intros _; [reflexivity|exact Hnew].
    + intros _. exact Hnew.
    + right. exact Hnew.
    + intros self Hself. rewrite Hnew in Hself. discriminate.
Qed.

(** C7 as stated fails in the "only if": a configuration that supplies
    both [server] and [userId] is refused when one of them is empty or
    zero. *)
Lemma supplied_but_falsy_is_refused :
  lookup [("server", VStr ""); ("userId", VStr "123USER4567")] "server"
  = Some (VStr "") /\
  lookup [("server", VStr ""); ("userId", VStr "123USER4567")] "userId"
  = Some (VStr "123USER4567") /\
  usps_new (VObj [("server", VStr ""); ("userId", VStr "123USER4567")])
  = Throw refusal /\
  usps_new (VObj [("server", VStr "http://production.shippingapis.com/ShippingAPI.dll");
                  ("userId", VInt 0)])
  = Throw refusal.
Proof. repeat split; reflexivity. Qed.

(** A configuration without [ttl] gives the client of the examples. *)
Lemma construction_defaults_ttl :
  usps_new (VObj [("server", VStr "http://production.shippingapis.com/ShippingAPI.dll");
                  ("userId", VStr "123USER4567")])
  = Ok client.
Proof. reflexivity. Qed.

(** ** What the operations return *)

Lemma constructed_config (c : value) (self : usps) :
  usps_new c = Ok self -> exists props, config self = VObj props.
Proof.
  intros Hnew.
  destruct (truthy c && truthy (index c "server") && truthy (index c "userId"))
    eqn:Hok.
  - destruct (usps_new_ok c Hok) as [props [-> Hnew']].
    rewrite Hnew' in Hnew. injection Hnew as <-. cbn [config].
    destruct (truthy (index (VObj props) "ttl")); eexists; reflexivity.
  - rewrite (usps_new_refused c Hok) in Hnew. discriminate.
Qed.

(** With an object as configuration and as parameters, [callUSPS] comes
    to the builder, and issues the request when the builder returns. *)
Lemma callUSPS_closed (h : host) (api method path : string)
    (props params : obj) (cb : callback) :
  callUSPS h api method path (VObj props) (VObj params) cb =
  match build_xml h (envelope method (VObj params) (index (VObj props) "userId")) with
  | Ok xml =>
      Ok {| opts := {| url := index (VObj props) "server";
                       qs_API := api;
                       qs_XML := xml;
                       timeout := index (VObj props) "ttl" |};
            handler := on_response h api path cb |}
  | Throw e => Throw e
  end.
Proof.
  unfold callUSPS, envelope.
  rewrite (truthy_get_prop (VObj props) "userId" eq_refl).
  rewrite (truthy_get_prop (VObj props) "server" eq_refl).
  rewrite (truthy_get_prop (VObj props) "ttl" eq_refl).
  cbn [rbind assign].
  destruct (build_xml h _); reflexivity.
Qed.

Lemma operation_returns (h : host) (api method path : string)
    (props params : obj) (cb : callback) (ret : returned) :
  match build_xml h (envelope method (VObj params) (index (VObj props) "userId")) with
  | Ok _ =>
      exists call,
        (call' <-? callUSPS h api method path (VObj props) (VObj params) cb;
         Ok (call', ret)) = Ok (call, ret)
  | Throw e =>
      (call' <-? callUSPS h api method path (VObj props) (VObj params) cb;
       Ok (call', ret)) = Throw e
  end.
Proof.
  rewrite callUSPS_closed.
  destruct (build_xml h _); [eexists|]; reflexivity.
Qed.

(** C10, as amended: on a constructed client, address verification and
    zip code lookup throw a TypeError, before any request, when the
    address is [null] or [undefined]; each operation throws what the
    builder throws when it refuses the tree of the request; otherwise
    address verification and zip code lookup evaluate to the client
    itself, city/state lookup and the rate request to [undefined]. *)
Theorem operations_return_this_or_undefined
    (h : host) (c : value) (self : usps) (address : value)
    (zip fromZip toZip weight service : value) (cb : callback) :
  usps_new c = Ok self ->
  match address_fields address with
  | Ok fields =>
      match build_xml h (envelope "AddressValidateRequest" (verify_params fields)
                           (index (config self) "userId")) with
      | Ok _ => exists call, verify h self address cb = Ok (call, This self)
      | Throw e => verify h self address cb = Throw e
      end /\
      match build_xml h (envelope "ZipCodeLookupRequest"
                           (zipCodeLookup_params fields)
                           (index (config self) "userId")) with
      | Ok _ => exists call, zipCodeLookup h self address cb = Ok (call, This self)
      | Throw e => zipCodeLookup h self address cb = Throw e
      end
  | Throw _ =>
      verify h self address cb = Throw TypeError /\
      zipCodeLookup h self address cb = Throw TypeError
  end /\
  match build_xml h (envelope "CityStateLookupRequest" (cityStateLookup_params zip)
                       (index (config self) "userId")) with
  | Ok _ => exists call, cityStateLookup h self zip cb = Ok (call, Undefined)
  | Throw e => cityStateLookup h self zip cb = Throw e
  end /\
  match build_xml h (envelope "RateV4Request"
                       (RateV4Request_params h fromZip toZip weight service)
                       (index (config self) "userId")) with
  | Ok _ =>
      exists call,
        RateV4Request h self fromZip toZip weight service cb = Ok (call, Undefined)
  | Throw e => RateV4Request h self fromZip toZip weight service cb = Throw e
  end.
Proof.
  intros Hnew.
  destruct (constructed_config c self Hnew) as [props Hprops].
  unfold verify, zipCodeLookup, cityStateLookup, RateV4Request.
  rewrite Hprops.
  split; [|split].
  - destruct address; cbn [address_fields rbind];
      try (split; reflexivity);
      (split; [unfold verify_params|unfold zipCodeLookup_params];
       apply operation_returns).
  - unfold cityStateLookup_params. apply operation_returns.
  - unfold RateV4Request_params. apply operation_returns.
Qed.

Lemma operations_return_this_or_undefined_client :
  (exists call,
      verify (answering VNull) client (VObj address_no_street2) record
      = Ok (call, This client)) /\
  (exists call,
      cityStateLookup (answering VNull) client (VStr "80202") record
      = Ok (call, Undefined)).
Proof.
  destruct (operations_return_this_or_undefined (answering VNull)
              (VObj [("server", VStr "http://production.shippingapis.com/ShippingAPI.dll");
                     ("userId", VStr "123USER4567")])
              client (VObj address_no_street2) (VStr "80202") (VStr "94103")
              (VStr "80202") (VInt 40) VUndef record eq_refl)
    as [[Hverify _] [Hcity _]].
  split; [exact Hverify|exact Hcity].
Defined.

(** C10 as stated fails: on a [null] or [undefined] address, address
    verification and zip code lookup return nothing: the read of
    [address.street2] throws a TypeError before [return this], and no
    request is issued. *)
Lemma null_address_throws_before_return :
  usps_new (VObj [("server", VStr "http://production.shippingapis.com/ShippingAPI.dll");
                  ("userId", VStr "123USER4567")])
  = Ok client /\
  verify (answering VNull) client VNull record = Throw TypeError /\
  zipCodeLookup (answering VNull) client VUndef record = Throw TypeError /\
  outcome (answering VNull) (verify (answering VNull) client VNull record)
  = crashed TypeError.
Proof. repeat split; reflexivity. Qed.

(** * Further properties *)

(** ** The constructor and the request *)

Lemma set_key_fresh (props : obj) (key : string) (v : value) :
  lookup props key = None -> set_key props key v = (props ++ [(key, v)])%list.
Proof.
  induction props as [|[k x] rest IH]; simpl; intros Hnone.
  - reflexivity.
  - destruct (String.eqb k key); [discriminate|].
    rewrite (IH Hnone). reflexivity.
Qed.

Lemma index_set_key_other (props : obj) (key key' : string) (v : value) :
  String.eqb key key' = false ->
  index (VObj (set_key props key v)) key' = index (VObj props) key'.
Proof.
  intros Hne. unfold index. simpl.
  rewrite (lookup_set_key_other props key key' v Hne). reflexivity.
Qed.

(** X1: a constructed client keeps a truthy [server], [userId] and [ttl]
    and every property of the configuration other than [ttl]; handing
    its configuration to the constructor again gives the same client. *)
Theorem constructed_client_is_stable (c : value) (self : usps) :
  usps_new c = Ok self ->
  truthy (index (config self) "server") = true /\
  truthy (index (config self) "userId") = true /\
  truthy (index (config self) "ttl") = true /\
  (forall key, String.eqb "ttl" key = false ->
               index (config self) key = index c key) /\
  usps_new (config self) = Ok self.
Proof.
  intros Hnew.
  destruct (truthy c && truthy (index c "server") && truthy (index c "userId"))
    eqn:Hok; [|rewrite (usps_new_refused c Hok) in Hnew; discriminate].
  destruct (usps_new_ok c Hok) as [props [-> Hnew']].
  rewrite Hnew' in Hnew. injection Hnew as <-. cbn [config].
  apply andb_prop in Hok. destruct Hok as [Hok Huser].
  apply andb_prop in Hok. destruct Hok as [_ Hserver].
  assert (Hkeep : forall key, String.eqb "ttl" key = false ->
                    index (if truthy (index (VObj props) "ttl") then VObj props
                           else VObj (set_key props "ttl" (VInt 100000))) key
                    = index (VObj props) key).
  { intros key Hne. destruct (truthy (index (VObj props) "ttl")); [reflexivity|].
    apply index_set_key_other. exact Hne. }
  assert (Httl : truthy (index (if truthy (index (VObj props) "ttl") then VObj props
                                else VObj (set_key props "ttl" (VInt 100000))) "ttl")
                 = true).
  { destruct (truthy (index (VObj props) "ttl")) eqn:Ht; [exact Ht|].
    unfold index. simpl. rewrite lookup_set_key_same. reflexivity. }
  assert (Hs : truthy (index (if truthy (index (VObj props) "ttl") then VObj props
                              else VObj (set_key props "ttl" (VInt 100000))) "server")
               = true)
    by (rewrite (Hkeep "server" eq_refl); exact Hserver).
  assert (Hu : truthy (index (if truthy (index (VObj props) "ttl") then VObj props
                              else VObj (set_key props "ttl" (VInt 100000))) "userId")
               = true)
    by (rewrite (Hkeep "userId" eq_refl); exact Huser).
  repeat split; try assumption.
  set (cfg := if truthy (index (VObj props) "ttl") then VObj props
              else VObj (set_key props "ttl" (VInt 100000))) in *.
  assert (Hcfg : truthy cfg && truthy (index cfg "server")
                 && truthy (index cfg "userId") = true).
  { rewrite Hs, Hu. unfold cfg.
    destruct (truthy (index (VObj props) "ttl")); reflexivity. }
  destruct (usps_new_ok cfg Hcfg) as [props' [Hprops' Hagain]].
  rewrite Hagain, Httl. reflexivity.
Qed.

Lemma constructed_client_is_stable_example :
  truthy (index (config client) "ttl") = true /\
  usps_new (config client) = Ok client.
Proof.
  destruct (constructed_client_is_stable
              (VObj [("server", VStr "http://production.shippingapis.com/ShippingAPI.dll");
                     ("userId", VStr "123USER4567")])
              client eq_refl) as [_ [_ [Httl [_ Hagain]]]].
  split; assumption.
Defined.

(** X2: a request that [callUSPS] issues goes to the configured
    [server], with the configured [ttl] as timeout and the operation code
    as [API]; its [XML] is what the builder made of one root, named after
    the request type, that holds the parameters in their order followed
    by [@USERID] (a parameter tree that already has [@USERID] has it
    overwritten in place). *)
Theorem callUSPS_request (h : host) (api method path : string)
    (props params : obj) (cb : callback) (call : pending) :
  callUSPS h api method path (VObj props) (VObj params) cb = Ok call ->
  url (opts call) = index (VObj props) "server" /\
  timeout (opts call) = index (VObj props) "ttl" /\
  qs_API (opts call) = api /\
  (exists children,
      build_xml h (VObj [(method, VObj children)]) = Ok (qs_XML (opts call)) /\
      lookup children "@USERID" = Some (index (VObj props) "userId") /\
      (forall key, String.eqb "@USERID" key = false ->
                   lookup children key = lookup params key) /\
      (lookup params "@USERID" = None ->
       children = (params ++ [("@USERID", index (VObj props) "userId")])%list)).
Proof.
  rewrite callUSPS_closed. unfold envelope.
  destruct (build_xml h _) as [xml|e] eqn:Hxml; [|discriminate].
  intros Hcall. injection Hcall as <-. cbn [opts url timeout qs_API qs_XML].
  repeat split.
  exists (set_key params "@USERID" (index (VObj props) "userId")).
  split; [exact Hxml|]. split; [apply lookup_set_key_same|]. split.
  - intros key Hne. apply lookup_set_key_other. exact Hne.
  - apply set_key_fresh.
Qed.

Lemma callUSPS_request_verify :
  exists call,
    callUSPS (answering VNull) "Verify" "AddressValidateRequest"
      "AddressValidateResponse.Address" (config client)
      (verify_params address_no_street2) record = Ok call /\
    url (opts call) = VStr "http://production.shippingapis.com/ShippingAPI.dll" /\
    timeout (opts call) = VInt 100000 /\
    qs_API (opts call) = "Verify".
Proof.
  eexists. split; [reflexivity|].
  destruct (callUSPS_request (answering VNull) "Verify" "AddressValidateRequest"
              "AddressValidateResponse.Address"
              [("server", VStr "http://production.shippingapis.com/ShippingAPI.dll");
               ("userId", VStr "123USER4567"); ("ttl", VInt 100000)]
              [("Address",
                VObj [("Address1", VStr ""); ("Address2", VStr "322 3rd st.");
                      ("City", VStr "San Francisco"); ("State", VStr "CA");
                      ("Zip5", VStr "94103"); ("Zip4", VStr "")])]
              record _ eq_refl) as [Hurl [Htimeout [Hapi _]]].
  split; [exact Hurl|]. split; [exact Htimeout|exact Hapi].
Defined.

Lemma operation_request (h : host) (api method path : string)
    (props params : obj) (cb : callback) (ret : returned)
    (call : pending) (r : returned) :
  (call' <-? callUSPS h api method path (VObj props) (VObj params) cb;
   Ok (call', ret)) = Ok (call, r) ->
  qs_API (opts call) = api /\
  url (opts call) = index (VObj props) "server" /\
  timeout (opts call) = index (VObj props) "ttl".
Proof.
  rewrite callUSPS_closed.
  destruct (build_xml h _) as [xml|e]; [|discriminate].
  cbn [rbind]. intros Hop. injection Hop as <- _.
  repeat split.
Qed.

(** X3: on a client constructed from a configuration without [ttl], a
    request that any of the four operations issues carries the code of
    the operation, goes to the configured [server] and has the timeout
    100000. *)
Theorem operations_send_default_timeout
    (h : host) (c : value) (self : usps) (address : value)
    (zip fromZip toZip weight service : value) (cb : callback) :
  usps_new c = Ok self ->
  index c "ttl" = VUndef ->
  (forall call ret,
      verify h self address cb = Ok (call, ret) ->
      qs_API (opts call) = "Verify" /\
      url (opts call) = index c "server" /\
      timeout (opts call) = VInt 100000) /\
  (forall call ret,
      zipCodeLookup h self address cb = Ok (call, ret) ->
      qs_API (opts call) = "ZipCodeLookup" /\
      url (opts call) = index c "server" /\
      timeout (opts call) = VInt 100000) /\
  (forall call ret,
      cityStateLookup h self zip cb = Ok (call, ret) ->
      qs_API (opts call) = "CityStateLookup" /\
      url (opts call) = index c "server" /\
      timeout (opts call) = VInt 100000) /\
  (forall call ret,
      RateV4Request h self fromZip toZip weight service cb = Ok (call, ret) ->
      qs_API (opts call) = "RateV4" /\
      url (opts call) = index c "server" /\
      timeout (opts call) = VInt 100000).
Proof.
  intros Hnew Hnone.
  destruct (truthy c && truthy (index c "server") && truthy (index c "userId"))
    eqn:Hok; [|rewrite (usps_new_refused c Hok) in Hnew; discriminate].
  destruct (usps_new_ok c Hok) as [props [-> Hnew']].
  rewrite Hnew' in Hnew. injection Hnew as <-.
  rewrite Hnone. cbn [truthy].
  unfold verify, zipCodeLookup, cityStateLookup, RateV4Request.
  unfold verify_params, zipCodeLookup_params, cityStateLookup_params,
    RateV4Request_params.
  cbn [config].
  assert (Hserver : index (VObj (set_key props "ttl" (VInt 100000))) "server"
                    = index (VObj props) "server")
    by (apply index_set_key_other; reflexivity).
  assert (Httl : index (VObj (set_key props "ttl" (VInt 100000))) "ttl"
                 = VInt 100000)
    by (unfold index; simpl; rewrite lookup_set_key_same; reflexivity).
  split; [|split; [|split]]; intros call ret Hop;
    try (destruct (address_fields address) as [fields|]; [|discriminate];
         cbn [rbind] in Hop);
    destruct (operation_request _ _ _ _ _ _ _ _ _ _ Hop) as [Hapi [Hurl Htimeout]];
    rewrite Hserver in Hurl; rewrite Httl in Htimeout;
    (split; [exact Hapi|split; [exact Hurl|exact Htimeout]]).
Qed.

Lemma operations_send_default_timeout_example :
  exists call ret,
    verify (answering VNull) client (VObj address_no_street2) record
    = Ok (call, ret) /\
    qs_API (opts call) = "Verify" /\
    url (opts call) = VStr "http://production.shippingapis.com/ShippingAPI.dll" /\
    timeout (opts call) = VInt 100000.
Proof.
  eexists. eexists. split; [reflexivity|].
  exact (proj1 (operations_send_default_timeout (answering VNull)
                  (VObj [("server", VStr "http://production.shippingapis.com/ShippingAPI.dll");
                         ("userId", VStr "123USER4567")])
                  client (VObj address_no_street2) (VStr "80202") (VStr "94103")
                  (VStr "80202") (VStr "40") VUndef record eq_refl eq_refl)
               _ (This client) eq_refl).
Defined.

(** ** Transport and parse errors *)

Lemma on_response_transport_error (h : host) (api path : string) (cb : callback)
    (err res body : value) (log : list event) :
  truthy err = true ->
  on_response h api path cb err res body log =
  cb (Some {| message := index err "message"; cause := err;
              extra := context api "request" |}) VUndef log.
Proof.
  intros Herr. unfold on_response. rewrite Herr. unfold bind, lift.
  rewrite (truthy_get_prop err "message" Herr). reflexivity.
Qed.

Lemma on_parsed_parse_error (api path : string) (cb : callback)
    (err tree : value) (log : list event) :
  truthy err = true ->
  on_parsed api path cb err tree log =
  cb (Some {| message := index err "message"; cause := err;
              extra := context api "xml parse" |}) VUndef log.
Proof.
  intros Herr. unfold on_parsed. rewrite Herr. unfold bind, lift.
  rewrite (truthy_get_prop err "message" Herr). reflexivity.
Qed.

(** X4: when the transport answers an issued call with a truthy error,
    the callback fires once with an error that has the [message] of the
    transport's error (undefined when it has none), the transport's
    error itself as cause, and the operation code with the phase
    ['request'] as context; the body is not parsed, so the outcome is the
    same whatever the parser would make of it. *)
Theorem transport_error_is_reported
    (h : host) (api method path : string) (config params : value)
    (call : pending) (err res body : value) :
  callUSPS h api method path config params record = Ok call ->
  request h (opts call) = (err, res, body) ->
  truthy err = true ->
  complete h call [] =
  failed {| message := index err "message"; cause := err;
            extra := VObj [("method", VStr api); ("during", VStr "request")] |} /\
  (forall parse',
      complete h {| opts := opts call;
                    handler := on_response
                                 {| build_xml := build_xml h; request := request h;
                                    parseString := parse'; to_string := to_string h;
                                    fraction_digits := fraction_digits h |}
                                 api path record |} []
      = complete h call []).
Proof.
  intros Hcall Hreq Herr.
  destruct (callUSPS_handler _ _ _ _ _ _ _ _ Hcall) as [Hhandler _].
  assert (Hfirst : complete h call [] =
                   failed {| message := index err "message"; cause := err;
                             extra := context api "request" |}).
  { unfold complete. rewrite Hreq, Hhandler.
    rewrite (on_response_transport_error h api path record err res body [] Herr).
    reflexivity. }
  split; [exact Hfirst|].
  intros parse'. rewrite Hfirst.
  unfold complete. cbn [opts handler]. rewrite Hreq.
  rewrite (on_response_transport_error _ api path record err res body [] Herr).
  reflexivity.
Qed.

Lemma transport_error_is_reported_timeout :
  exists call,
    callUSPS unreachable_host "RateV4" "RateV4Request" "RateV4Response"
      (config client) (VObj []) record = Ok call /\
    complete unreachable_host call [] =
    failed {| message := VStr "ETIMEDOUT";
              cause := VObj [("message", VStr "ETIMEDOUT")];
              extra := VObj [("method", VStr "RateV4"); ("during", VStr "request")] |}.
Proof.
  eexists. split; [reflexivity|].
  refine (proj1 (transport_error_is_reported unreachable_host
                   "RateV4" "RateV4Request" "RateV4Response"
                   (config client) (VObj []) _
                   (VObj [("message", VStr "ETIMEDOUT")]) VUndef VUndef
                   eq_refl eq_refl eq_refl)).
Defined.

(** X5: when the transport answers without an error and the parser
    reports a truthy error, the callback fires once with an error that
    has the [message] of the parser's error, the parser's error as cause,
    and the operation code with the phase ['xml parse'] as context,
    whatever tree the parser hands over with it: a root-level [Error] in
    that tree is not looked at. *)
Theorem parse_error_is_reported
    (h : host) (api method path : string) (config params : value)
    (call : pending) (err res body perr tree : value) :
  callUSPS h api method path config params record = Ok call ->
  request h (opts call) = (err, res, body) ->
  truthy err = false ->
  parseString h body = (perr, tree) ->
  truthy perr = true ->
  complete h call [] =
  failed {| message := index perr "message"; cause := perr;
            extra := VObj [("method", VStr api); ("during", VStr "xml parse")] |}.
Proof.
  intros Hcall Hreq Herr Hparse Hperr.
  destruct (callUSPS_handler _ _ _ _ _ _ _ _ Hcall) as [Hhandler _].
  unfold complete. rewrite Hreq, Hhandler.
  unfold on_response. rewrite Herr, Hparse.
  rewrite (on_parsed_parse_error api path record perr tree [] Hperr).
  reflexivity.
Qed.

Lemma parse_error_is_reported_unclosed :
  exists call,
    callUSPS unparsable_host "Verify" "AddressValidateRequest"
      "AddressValidateResponse.Address" (config client) (VObj []) record
    = Ok call /\
    complete unparsable_host call [] =
    failed {| message := VStr "Unclosed root tag";
              cause := VObj [("message", VStr "Unclosed root tag")];
              extra := VObj [("method", VStr "Verify");
                             ("during", VStr "xml parse")] |}.
Proof.
  eexists. split; [reflexivity|].
  refine (parse_error_is_reported unparsable_host
            "Verify" "AddressValidateRequest" "AddressValidateResponse.Address"
            (config client) (VObj []) _ VNull (VObj []) (VStr "<Error>")
            (VObj [("message", VStr "Unclosed root tag")])
            (VObj [("Error", VObj [("Description", VArr [VStr "ignored"])])])
            eq_refl eq_refl eq_refl eq_refl eq_refl).
Defined.

(** ** What the operations make of callUSPS's report *)

Lemma forwarded_error (h : host) (api path : string) (done : callback)
    (err res body : value) (e : USPSError) :
  forwards done ->
  on_response h api path record err res body [] = failed e ->
  on_response h api path done err res body [] = failed e.
Proof.
  intros Hdone.
  unfold on_response.
  destruct (truthy err).
  { unfold bind, lift.
    destruct (get_prop err "message") as [msg|x]; [|discriminate].
    intros Hrec. rewrite Hdone. exact Hrec. }
  destruct (parseString h body) as [perr tree].
  unfold on_parsed.
  destruct (truthy perr).
  { unfold bind, lift.
    destruct (get_prop perr "message") as [msg|x]; [|discriminate].
    intros Hrec. rewrite Hdone. exact Hrec. }
  unfold bind, lift.
  destruct (get_prop tree "Error") as [rootError|x]; [|discriminate].
  destruct (truthy rootError).
  { intros Hrec. rewrite Hdone. exact Hrec. }
  destruct (walkResult (split "." path) tree) as [node|x]; [|discriminate].
  destruct (get_prop node "Error") as [nodeError|x]; [|discriminate].
  destruct (truthy nodeError).
  { intros Hrec. rewrite Hdone. exact Hrec. }
  discriminate.
Qed.

(** X6: an error that [callUSPS] reports (of the transport, of the
    parser, root-level or node-level) reaches the caller of each of the
    four operations as the same error, with the same message, cause and
    context, and with no value beside it. *)
Theorem operations_forward_errors_unchanged
    (h : host) (api path : string) (err res body : value) (e : USPSError) :
  on_response h api path record err res body [] = failed e ->
  on_response h api path (verify_done record) err res body [] = failed e /\
  on_response h api path (zipCodeLookup_done h record) err res body [] = failed e /\
  on_response h api path (cityStateLookup_done record) err res body [] = failed e /\
  on_response h api path (RateV4Request_done record) err res body [] = failed e.
Proof.
  intros Hrec.
  repeat split; apply forwarded_error; try exact Hrec;
    intros e' data log; reflexivity.
Qed.

Lemma operations_forward_errors_unchanged_timeout :
  on_response unreachable_host "Verify" "AddressValidateResponse.Address"
    (verify_done record) (VObj [("message", VStr "ETIMEDOUT")]) VUndef VUndef []
  = failed {| message := VStr "ETIMEDOUT";
              cause := VObj [("message", VStr "ETIMEDOUT")];
              extra := context "Verify" "request" |}.
Proof.
  exact (proj1 (operations_forward_errors_unchanged unreachable_host
                  "Verify" "AddressValidateResponse.Address"
                  (VObj [("message", VStr "ETIMEDOUT")]) VUndef VUndef _ eq_refl)).
Defined.

(** X7: the rate request does no reshaping: in every case (error, value
    or exception) its caller's callback is invoked exactly as the
    callback of [callUSPS] is. *)
Theorem RateV4Request_passes_result_through
    (h : host) (api path : string) (err res body : value) (log : list event) :
  on_response h api path (RateV4Request_done record) err res body log =
  on_response h api path record err res body log.
Proof.
  unfold on_response.
  destruct (truthy err).
  { unfold bind, lift. destruct (get_prop err "message"); reflexivity. }
  destruct (parseString h body) as [perr tree].
  unfold on_parsed.
  destruct (truthy perr).
  { unfold bind, lift. destruct (get_prop perr "message"); reflexivity. }
  unfold bind, lift.
  destruct (get_prop tree "Error") as [rootError|x]; [|reflexivity].
  destruct (truthy rootError); [reflexivity|].
  destruct (walkResult (split "." path) tree) as [node|x]; [|reflexivity].
  destruct (get_prop node "Error") as [nodeError|x]; [|reflexivity].
  destruct (truthy nodeError); reflexivity.
Qed.

(** ** The walk *)

Lemma split_not_nil (sep : ascii) (s : string) : split sep s <> [].
Proof.
  destruct s as [|c rest]; simpl; [discriminate|].
  destruct (Ascii.eqb c sep); [discriminate|].
  destruct (split sep rest); discriminate.
Qed.

Lemma split_app (sep : ascii) (a b : string) :
  split sep (a ++ String sep b)%string = (split sep a ++ split sep b)%list.
Proof.
  induction a as [|c rest IH]; simpl.
  - rewrite Ascii.eqb_refl. reflexivity.
  - destruct (Ascii.eqb c sep).
    + rewrite IH. reflexivity.
    + rewrite IH.
      destruct (split sep rest) as [|part parts] eqn:Hrest.
      * exfalso. exact (split_not_nil sep rest Hrest).
      * reflexivity.
Qed.

Lemma walkResult_app (keys keys' : list string) :
  forall node,
    walkResult (keys ++ keys') node =
    (reached <-? walkResult keys node; walkResult keys' reached).
Proof.
  induction keys as [|key rest IH]; intros node.
  - reflexivity.
  - simpl.
    destruct (get_prop node key) as [next|e]; simpl; [|reflexivity].
    destruct (is_array next).
    + destruct (get_prop next "0") as [first|e]; simpl; [apply IH|reflexivity].
    + apply IH.
Qed.

(** X8: walking a dotted path ["p.q"] is walking ["p"] and then, from the
    node reached, walking ["q"]; an exception of the first part is the
    exception of the whole. *)
Theorem walk_of_joined_paths (p q : string) (tree : value) :
  walkResult (split "." (p ++ String "." q)%string) tree =
  (reached <-? walkResult (split "." p) tree; walkResult (split "." q) reached).
Proof.
  rewrite split_app. apply walkResult_app.
Qed.

(** X9: wherever the walk meets a sequence, it goes on in the first
    element and the elements after it play no part; in an empty sequence
    it goes on from [undefined], so that a further key throws a
    TypeError and the end of the path gives [undefined]. *)
Theorem walk_takes_first_element
    (before after : list string) (key : string) (tree node : value) :
  walkResult before tree = Ok node ->
  (forall first others,
      get_prop node key = Ok (VArr (first :: others)) ->
      walkResult (before ++ key :: after) tree = walkResult after first) /\
  (get_prop node key = Ok (VArr []) ->
   walkResult (before ++ key :: after) tree =
   match after with
   | [] => Ok VUndef
   | _ :: _ => Throw TypeError
   end).
Proof.
  intros Hbefore. split.
  - intros first others Hget.
    rewrite walkResult_app, Hbefore. cbn [rbind].
    rewrite (walkResult_step key after node _ Hget). reflexivity.
  - intros Hget.
    rewrite walkResult_app, Hbefore. cbn [rbind].
    rewrite (walkResult_step key after node _ Hget).
    destruct after; reflexivity.
Qed.

Lemma walk_takes_first_element_of_two :
  walkResult ["AddressValidateResponse"; "Address"; "City"] tree_two_addresses
  = Ok (VStr "DENVER").
Proof.
  destruct (walk_takes_first_element ["AddressValidateResponse"] ["City"] "Address"
              tree_two_addresses
              (VObj [("Address", VArr [VObj [("City", VArr [VStr "DENVER"])];
                                       VObj [("City", VArr [VStr "BOULDER"])]])])
              eq_refl) as [Hfirst _].
  exact (Hfirst _ _ eq_refl).
Defined.

Lemma split_head (sep : ascii) (s : string) :
  exists rest, split sep s = hd EmptyString (split sep s) :: rest.
Proof.
  destruct (split sep s) as [|part parts] eqn:Hsplit.
  - exfalso. exact (split_not_nil sep s Hsplit).
  - exists parts. reflexivity.
Qed.

(** X10: for the result path of each of the four operations, a response
    without root-level [Error] whose root is not the first key of the
    path is not reported as an error: the walk, or the read of [Error]
    on its result, throws a TypeError and the callback does not fire.
    Nor does it on a tree that is [null] or [undefined]. *)
Theorem unexpected_root_is_not_reported
    (api path : string) (props : obj) :
  In path result_paths ->
  lookup props "Error" = None ->
  lookup props (hd EmptyString (split "." path)) = None ->
  extract api path (VObj props) = crashed TypeError /\
  extract api path VNull = crashed TypeError /\
  extract api path VUndef = crashed TypeError.
Proof.
  intros _ Hroot Hhead.
  split; [|split; reflexivity].
  assert (Hget : get_prop (VObj props) "Error" = Ok VUndef)
    by (simpl; rewrite Hroot; reflexivity).
  rewrite (extract_walk api path (VObj props) VUndef Hget eq_refl).
  destruct (split_head "." path) as [rest Hsplit].
  rewrite Hsplit.
  assert (Hkey : get_prop (VObj props) (hd EmptyString (split "." path)) = Ok VUndef)
    by (simpl; rewrite Hhead; reflexivity).
  rewrite (walkResult_step _ rest (VObj props) _ Hkey). cbn [collapse].
  destruct rest; reflexivity.
Qed.

Lemma unexpected_root_is_not_reported_example :
  extract "Verify" "AddressValidateResponse.Address"
    (VObj [("html", VObj [("body", VArr [VStr "Service Unavailable"])])])
  = crashed TypeError.
Proof.
  exact (proj1 (unexpected_root_is_not_reported "Verify"
                  "AddressValidateResponse.Address"
                  [("html", VObj [("body", VArr [VStr "Service Unavailable"])])]
                  (or_introl eq_refl) eq_refl eq_refl)).
Defined.

(** ** Messages *)










(** X12: the two messages are read from different shapes, and an [Error]
    of the other shape is reported with the raw node as message: at the
    root a sequence or a string has no [Description] to index, at the
    node a mapping without the key [0] or a string has no first element
    with a [Description]. *)
Theorem error_of_the_other_shape_keeps_raw_node :
  (forall items, root_message (VArr items) = VArr items) /\
  (forall s, root_message (VStr s) = VStr s) /\
  (forall props, lookup props "0" = None ->
                 node_message (VObj props) = VObj props) /\
  (forall s, node_message (VStr s) = VStr s) /\
  (forall api path s,
      extract api path
        (VObj [("Error", VArr [VObj [("Description", VArr [VStr s])]])])
      = failed {| message := VArr [VObj [("Description", VArr [VStr s])]];
                  cause := VArr [VObj [("Description", VArr [VStr s])]];
                  extra := VUndef |}).
Proof.
  split; [reflexivity|]. split; [reflexivity|]. split.
  { intros props Hnone. unfold node_message. simpl. rewrite Hnone. reflexivity. }
  split.
  { intros [|c rest]; reflexivity. }
  intros api path s.
  exact (extract_root_error api path
           (VObj [("Error", VArr [VObj [("Description", VArr [VStr s])]])])
           (VArr [VObj [("Description", VArr [VStr s])]]) eq_refl eq_refl).
Qed.

(** ** Reshaping *)

Lemma get_prop_readable (v : value) (key : string) :
  get_prop v key = if readable v then Ok (index v key) else Throw TypeError.
Proof.
  unfold index.
  destruct v; simpl; try reflexivity.
  - destruct (index_of_key key) as [i|].
    + destruct (String.get i s); reflexivity.
    + destruct (String.eqb key "length"); reflexivity.
  - destruct (index_of_key key) as [i|]; [reflexivity|].
    destruct (String.eqb key "length"); reflexivity.
  - destruct (lookup props key); reflexivity.
Qed.

Lemma truthy_readable (v : value) : truthy v = true -> readable v = true.
Proof. destruct v; simpl; try discriminate; reflexivity. Qed.

Lemma first_of_readable (node : value) (key : string) (log : list event) :
  readable node = true ->
  first_of node key log =
  (log, if readable (index node key)
        then Ok (index (index node key) "0")
        else Throw TypeError).
Proof.
  intros Hnode. unfold first_of, bind, lift.
  rewrite (get_prop_readable node key), Hnode.
  rewrite (get_prop_readable (index node key) "0").
  destruct (readable (index node key)); reflexivity.
Qed.

Lemma first_or_empty_readable (node : value) (key : string) (log : list event) :
  readable node = true ->
  first_or_empty node key log =
  (log, Ok (if truthy (index node key)
            then index (index node key) "0"
            else VStr "")).
Proof.
  intros Hnode. unfold first_or_empty, bind, lift, ret.
  rewrite (get_prop_readable node key), Hnode.
  destruct (truthy (index node key)) eqn:Htrue; [|reflexivity].
  rewrite (first_of_readable node key log Hnode).
  rewrite (truthy_readable _ Htrue). reflexivity.
Qed.

Lemma on_parsed_success (api path : string) (cb : callback)
    (tree rootError node nodeError : value) (log : list event) :
  get_prop tree "Error" = Ok rootError ->
  truthy rootError = false ->
  walkResult (split "." path) tree = Ok node ->
  get_prop node "Error" = Ok nodeError ->
  truthy nodeError = false ->
  on_parsed api path cb VNull tree log = cb None node log.
Proof.
  intros Hroot Hfalse Hwalk Hnode Hnfalse.
  unfold on_parsed, bind, lift. cbn [truthy].
  rewrite Hroot, Hfalse, Hwalk, Hnode, Hnfalse. reflexivity.
Qed.

(** X13: the reshaping of each operation in closed form, on a node that
    is neither [undefined] nor [null].  The callback fires with the
    first elements of the fields the operation reads when each of them
    can be indexed; when one of them is missing the reshaping throws a
    TypeError before the callback is reached.  [Address1] alone may be
    missing, and then [street2] is the empty string. *)
Theorem reshaping_needs_every_field (h : host) (node : value) :
  readable node = true ->
  verify_done record None node [] =
  (if readable (index node "Address2") && readable (index node "City")
      && readable (index node "Zip5") && readable (index node "State")
   then succeeded
          (VObj [("street1", index (index node "Address2") "0");
                 ("street2", if truthy (index node "Address1")
                             then index (index node "Address1") "0"
                             else VStr "");
                 ("city", index (index node "City") "0");
                 ("zip", index (index node "Zip5") "0");
                 ("state", index (index node "State") "0")])
   else crashed TypeError) /\
  zipCodeLookup_done h record None node [] =
  (if readable (index node "Address2") && readable (index node "City")
      && readable (index node "State") && readable (index node "Zip5")
      && readable (index node "Zip4")
   then succeeded
          (VObj [("street1", index (index node "Address2") "0");
                 ("street2", if truthy (index node "Address1")
                             then index (index node "Address1") "0"
                             else VStr "");
                 ("city", index (index node "City") "0");
                 ("state", index (index node "State") "0");
                 ("zip", js_concat h
                           (js_concat h (index (index node "Zip5") "0") (VStr "-"))
                           (index (index node "Zip4") "0"))])
   else crashed TypeError) /\
  cityStateLookup_done record None node [] =
  (if readable (index node "City") && readable (index node "State")
      && readable (index node "Zip5")
   then succeeded
          (VObj [("city", index (index node "City") "0");
                 ("state", index (index node "State") "0");
                 ("zip", index (index node "Zip5") "0")])
   else crashed TypeError).
Proof.
  intros Hnode.
  unfold verify_done, zipCodeLookup_done, cityStateLookup_done.
  unfold bind at 1 2 3 4 5.
  repeat split.
  - unfold bind.
    rewrite (first_of_readable node "Address2" [] Hnode).
    destruct (readable (index node "Address2")); [|reflexivity].
    rewrite (first_or_empty_readable node "Address1" [] Hnode).
    rewrite (first_of_readable node "City" [] Hnode).
    destruct (readable (index node "City")); [|reflexivity].
    rewrite (first_of_readable node "Zip5" [] Hnode).
    destruct (readable (index node "Zip5")); [|reflexivity].
    rewrite (first_of_readable node "State" [] Hnode).
    destruct (readable (index node "State")); reflexivity.
  - unfold bind.
    rewrite (first_of_readable node "Address2" [] Hnode).
    destruct (readable (index node "Address2")); [|reflexivity].
    rewrite (first_or_empty_readable node "Address1" [] Hnode).
    rewrite (first_of_readable node "City" [] Hnode).
    destruct (readable (index node "City")); [|reflexivity].
    rewrite (first_of_readable node "State" [] Hnode).
    destruct (readable (index node "State")); [|reflexivity].
    rewrite (first_of_readable node "Zip5" [] Hnode).
    destruct (readable (index node "Zip5")); [|reflexivity].
    rewrite (first_of_readable node "Zip4" [] Hnode).
    destruct (readable (index node "Zip4")); reflexivity.
  - unfold bind.
    rewrite (first_of_readable node "City" [] Hnode).
    destruct (readable (index node "City")); [|reflexivity].
    rewrite (first_of_readable node "State" [] Hnode).
    destruct (readable (index node "State")); [|reflexivity].
    rewrite (first_of_readable node "Zip5" [] Hnode).
    destruct (readable (index node "Zip5")); reflexivity.
Qed.

Lemma reshaping_needs_every_field_zip4 :
  verify_done record None node_without_zip4 [] =
  succeeded (VObj [("street1", VStr "322 3RD ST"); ("street2", VStr "");
                   ("city", VStr "SAN FRANCISCO"); ("zip", VStr "94103");
                   ("state", VStr "CA")]) /\
  zipCodeLookup_done (answering VNull) record None node_without_zip4 []
  = crashed TypeError.
Proof.
  destruct (reshaping_needs_every_field (answering VNull) node_without_zip4 eq_refl)
    as [Hverify [Hzip _]].
  split; [exact Hverify|exact Hzip].
Defined.



Lemma string_append_assoc (a b c : string) :
  (a ++ (b ++ c))%string = ((a ++ b) ++ c)%string.
Proof.
  induction a as [|x rest IH]; simpl; [reflexivity|].
  rewrite IH. reflexivity.
Qed.

(** X15: zip code lookup joins the two parts of the zip code: when the
    address of the response holds strings, the callback receives
    [Zip5], a hyphen and [Zip4] as [zip], the street lines swapped back,
    and an empty [street2] when the response has no [Address1]. *)
Theorem zipCodeLookup_joins_zip
    (h : host) (self : usps) (address : value) (call : pending) (r : returned)
    (props : obj) (street city state zip5 zip4 : string) :
  zipCodeLookup h self address record = Ok (call, r) ->
  answers h call
    (VObj [("ZipCodeLookupResponse", VObj [("Address", VArr [VObj props])])]) ->
  lookup props "Error" = None ->
  lookup props "Address1" = None ->
  lookup props "Address2" = Some (VArr [VStr street]) ->
  lookup props "City" = Some (VArr [VStr city]) ->
  lookup props "State" = Some (VArr [VStr state]) ->
  lookup props "Zip5" = Some (VArr [VStr zip5]) ->
  lookup props "Zip4" = Some (VArr [VStr zip4]) ->
  complete h call [] =
  succeeded (VObj [("street1", VStr street); ("street2", VStr "");
                   ("city", VStr city); ("state", VStr state);
                   ("zip", VStr (zip5 ++ "-" ++ zip4)%string)]).
Proof.
  intros Hop Hans Herror H1 H2 Hc Hs H5 H4.
  destruct (zipCodeLookup_handler _ _ _ _ _ _ Hop) as [Hhandler _].
  rewrite (complete_answered _ _ _ _ _ _ _ Hhandler Hans).
  assert (Hnode : get_prop (VObj props) "Error" = Ok VUndef)
    by (simpl; rewrite Herror; reflexivity).
  rewrite (on_parsed_success "ZipCodeLookup" "ZipCodeLookupResponse.Address"
             (zipCodeLookup_done h record)
             (VObj [("ZipCodeLookupResponse", VObj [("Address", VArr [VObj props])])])
             VUndef (VObj props) VUndef [] eq_refl eq_refl eq_refl Hnode eq_refl).
  unfold zipCodeLookup_done, first_or_empty, first_of, bind, lift, ret.
  simpl get_prop. rewrite H1, H2, Hc, Hs, H5, H4.
  unfold js_concat, record, succeeded. simpl.
  rewrite <- string_append_assoc. reflexivity.
Qed.

Lemma zipCodeLookup_joins_zip_example :
  exists call,
    zipCodeLookup
      (answering (VObj [("ZipCodeLookupResponse",
                         VObj [("Address",
                                VArr [VObj [("Address2", VArr [VStr "322 3RD ST"]);
                                            ("City", VArr [VStr "SAN FRANCISCO"]);
                                            ("State", VArr [VStr "CA"]);
                                            ("Zip5", VArr [VStr "94103"]);
                                            ("Zip4", VArr [VStr "3314"])]])])]))
      client (VObj address_no_street2) record = Ok (call, This client) /\
    complete
      (answering (VObj [("ZipCodeLookupResponse",
                         VObj [("Address",
                                VArr [VObj [("Address2", VArr [VStr "322 3RD ST"]);
                                            ("City", VArr [VStr "SAN FRANCISCO"]);
                                            ("State", VArr [VStr "CA"]);
                                            ("Zip5", VArr [VStr "94103"]);
                                            ("Zip4", VArr [VStr "3314"])]])])]))
      call [] =
    succeeded (VObj [("street1", VStr "322 3RD ST"); ("street2", VStr "");
                     ("city", VStr "SAN FRANCISCO"); ("state", VStr "CA");
                     ("zip", VStr "94103-3314")]).
Proof.
  eexists. split; [reflexivity|].
  refine (zipCodeLookup_joins_zip
            (answering (VObj [("ZipCodeLookupResponse",
                               VObj [("Address",
                                      VArr [VObj [("Address2", VArr [VStr "322 3RD ST"]);
                                                  ("City", VArr [VStr "SAN FRANCISCO"]);
                                                  ("State", VArr [VStr "CA"]);
                                                  ("Zip5", VArr [VStr "94103"]);
                                                  ("Zip4", VArr [VStr "3314"])]])])]))
            client (VObj address_no_street2) _ (This client)
            [("Address2", VArr [VStr "322 3RD ST"]);
             ("City", VArr [VStr "SAN FRANCISCO"]);
             ("State", VArr [VStr "CA"]);
             ("Zip5", VArr [VStr "94103"]);
             ("Zip4", VArr [VStr "3314"])]
            "322 3RD ST" "SAN FRANCISCO" "CA" "94103" "3314"
            eq_refl _ eq_refl eq_refl eq_refl eq_refl eq_refl eq_refl eq_refl).
  apply answering_answers.
Defined.

(** ** Weights *)

(** X16: a weight given as a string that starts with decimal digits
    counts as those digits and nothing more: what follows the first
    character that is no digit (a fraction, a unit) changes neither the
    ounces nor the pounds of the request. *)
Theorem weight_is_its_leading_digits
    (h : host) (digits rest : string) (c : ascii) :
  all_digits digits = true ->
  digits <> EmptyString ->
  digit_of c = None ->
  ozWeight h (VStr (digits ++ String c rest)%string) = ozWeight h (VStr digits) /\
  lbsWeight h (VStr (digits ++ String c rest)%string) = lbsWeight h (VStr digits).
Proof.
  intros Hall Hne Hc.
  destruct digits as [|d ds]; [contradiction|].
  assert (Hd : exists n, digit_of d = Some n).
  { simpl in Hall. destruct (digit_of d) as [n|]; [exists n; reflexivity|discriminate]. }
  destruct Hd as [n Hd].
  assert (Hparse : parseInt10 (String d ds ++ String c rest)%string
                   = parseInt10 (String d ds)).
  { change (String d ds ++ String c rest)%string
      with (String d (ds ++ String c rest)%string).
    rewrite (parseInt10_of_digit d _ n Hd), (parseInt10_of_digit d ds n Hd).
    change (String d (ds ++ String c rest)%string)
      with (String d ds ++ String c rest)%string.
    rewrite (digits_value_prefix (String d ds) rest c Hall Hc). reflexivity. }
  unfold lbsWeight, ozWeight. cbn [ToString]. rewrite Hparse.
  split; reflexivity.
Qed.

Lemma weight_is_its_leading_digits_fraction :
  ozWeight (answering VNull) (VStr "15.9") = num_of_Z 15 /\
  lbsWeight (answering VNull) (VStr "15.9") = Fin (15 # 16).
Proof.
  destruct (weight_is_its_leading_digits (answering VNull) "15" "9" "." eq_refl)
    as [Hoz Hlbs]; [discriminate|reflexivity|].
  split.
  - exact (eq_trans Hoz eq_refl).
  - exact (eq_trans Hlbs eq_refl).
Defined.

(** ** How often the caller's callback fires *)

Lemma get_prop_throws (v : value) (key : string) (e : exn) :
  get_prop v key = Throw e -> e = TypeError /\ readable v = false.
Proof.
  rewrite (get_prop_readable v key).
  destruct (readable v); [discriminate|].
  intros He. injection He as <-. split; reflexivity.
Qed.

Lemma get_prop_ok_readable (v : value) (key : string) (x : value) :
  get_prop v key = Ok x -> readable v = true.
Proof.
  rewrite (get_prop_readable v key).
  destruct (readable v); [reflexivity|discriminate].
Qed.

Lemma walkResult_throws (keys : list string) :
  forall node e, walkResult keys node = Throw e -> e = TypeError.
Proof.
  induction keys as [|key rest IH]; intros node e; simpl; [discriminate|].
  destruct (get_prop node key) as [next|x] eqn:Hget; simpl.
  - destruct (is_array next).
    + destruct (get_prop next "0") as [first|y] eqn:Hfirst; simpl.
      * apply IH.
      * intros He. injection He as <-.
        exact (proj1 (get_prop_throws _ _ _ Hfirst)).
    + apply IH.
  - intros He. injection He as <-. exact (proj1 (get_prop_throws _ _ _ Hget)).
Qed.

Lemma walkResult_unreadable (path : string) (tree : value) :
  readable tree = false -> walkResult (split "." path) tree = Throw TypeError.
Proof.
  intros Htree.
  destruct (split_head "." path) as [rest ->].
  simpl. rewrite (get_prop_readable tree _), Htree. reflexivity.
Qed.

Lemma verify_done_reshapes : reshapes (verify_done record) verify_result.
Proof.
  intros node log Hnode. unfold verify_done, verify_result, bind.
  rewrite (first_of_readable node "Address2" log Hnode).
  destruct (readable (index node "Address2")); [|reflexivity].
  rewrite (first_or_empty_readable node "Address1" log Hnode).
  rewrite (first_of_readable node "City" log Hnode).
  destruct (readable (index node "City")); [|reflexivity].
  rewrite (first_of_readable node "Zip5" log Hnode).
  destruct (readable (index node "Zip5")); [|reflexivity].
  rewrite (first_of_readable node "State" log Hnode).
  destruct (readable (index node "State")); reflexivity.
Qed.

Lemma zipCodeLookup_done_reshapes (h : host) :
  reshapes (zipCodeLookup_done h record) (zipCodeLookup_result h).
Proof.
  intros node log Hnode. unfold zipCodeLookup_done, zipCodeLookup_result, bind.
  rewrite (first_of_readable node "Address2" log Hnode).
  destruct (readable (index node "Address2")); [|reflexivity].
  rewrite (first_or_empty_readable node "Address1" log Hnode).
  rewrite (first_of_readable node "City" log Hnode).
  destruct (readable (index node "City")); [|reflexivity].
  rewrite (first_of_readable node "State" log Hnode).
  destruct (readable (index node "State")); [|reflexivity].
  rewrite (first_of_readable node "Zip5" log Hnode).
  destruct (readable (index node "Zip5")); [|reflexivity].
  rewrite (first_of_readable node "Zip4" log Hnode).
  destruct (readable (index node "Zip4")); reflexivity.
Qed.

Lemma cityStateLookup_done_reshapes :
  reshapes (cityStateLookup_done record) cityStateLookup_result.
Proof.
  intros node log Hnode. unfold cityStateLookup_done, cityStateLookup_result, bind.
  rewrite (first_of_readable node "City" log Hnode).
  destruct (readable (index node "City")); [|reflexivity].
  rewrite (first_of_readable node "State" log Hnode).
  destruct (readable (index node "State")); [|reflexivity].
  rewrite (first_of_readable node "Zip5" log Hnode).
  destruct (readable (index node "Zip5")); reflexivity.
Qed.

Lemma RateV4Request_done_reshapes : reshapes (RateV4Request_done record) Some.
Proof. intros node log Hnode. reflexivity. Qed.

Lemma complete_fires_once (h : host) (api path : string)
    (done : callback) (reshape : value -> option value) (call : pending) :
  forwards done ->
  reshapes done reshape ->
  handler call = on_response h api path done ->
  fires_once h path reshape call.
Proof.
  intros Hforwards Hreshapes Hhandler.
  unfold fires_once, reports_error, delivered_node, complete.
  rewrite Hhandler.
  destruct (request h (opts call)) as [[err res] body].
  unfold on_response.
  destruct (truthy err) eqn:Herr.
  { cbn [orb]. unfold bind, lift.
    rewrite (truthy_get_prop err "message" Herr), Hforwards.
    eexists. reflexivity. }
  cbn [orb].
  destruct (parseString h body) as [perr tree].
  unfold on_parsed.
  destruct (truthy perr) eqn:Hperr.
  { cbn [orb]. unfold bind, lift.
    rewrite (truthy_get_prop perr "message" Hperr), Hforwards.
    eexists. reflexivity. }
  cbn [orb]. unfold bind, lift.
  destruct (get_prop tree "Error") as [rootError|e] eqn:Hroot.
  - destruct (truthy rootError).
    { cbn [orb]. rewrite Hforwards. eexists. reflexivity. }
    cbn [orb].
    destruct (walkResult (split "." path) tree) as [node|e] eqn:Hwalk; cbn [rbind].
    + destruct (get_prop node "Error") as [nodeError|e] eqn:Hnode; cbn [rbind].
      * destruct (truthy nodeError).
        { rewrite Hforwards. eexists. reflexivity. }
        rewrite (Hreshapes node [] (get_prop_ok_readable _ _ _ Hnode)).
        destruct (reshape node); reflexivity.
      * rewrite (proj1 (get_prop_throws _ _ _ Hnode)). reflexivity.
    + rewrite (walkResult_throws _ _ _ Hwalk). reflexivity.
  - destruct (get_prop_throws _ _ _ Hroot) as [-> Htree].
    rewrite (walkResult_unreadable path tree Htree). reflexivity.
Qed.

Lemma operation_fires_once (h : host) (api method path : string)
    (config params : value) (done : callback)
    (reshape : value -> option value) (ret : returned)
    (call : pending) (r : returned) :
  forwards done ->
  reshapes done reshape ->
  (call' <-? callUSPS h api method path config params done; Ok (call', ret))
  = Ok (call, r) ->
  fires_once h path reshape call.
Proof.
  intros Hforwards Hreshapes Hop.
  destruct (operation_handler _ _ _ _ _ _ _ _ _ _ Hop) as [Hhandler _].
  exact (complete_fires_once h api path done reshape call
           Hforwards Hreshapes Hhandler).
Qed.

(** C9, as amended: once the transport has answered a request that one of
    the four operations issued, the caller's callback has fired at most
    once, with an error or with a value and never both.  It has fired
    exactly once with an error when the answer is a transport error, a
    parse error, a root-level or a node-level error.  Otherwise it has
    fired exactly once, with the record the operation makes of the node
    under its result path, when the response has that path and the node
    every field the operation reads; when the response lacks the path or
    a field, a TypeError was thrown and the callback has not fired. *)
Theorem callback_fires_once_unless_the_response_lacks_a_field
    (h : host) (self : usps) (address zip fromZip toZip weight service : value) :
  (forall call r,
      verify h self address record = Ok (call, r) ->
      fires_once h "AddressValidateResponse.Address" verify_result call) /\
  (forall call r,
      zipCodeLookup h self address record = Ok (call, r) ->
      fires_once h "ZipCodeLookupResponse.Address" (zipCodeLookup_result h) call) /\
  (forall call r,
      cityStateLookup h self zip record = Ok (call, r) ->
      fires_once h "CityStateLookupResponse.ZipCode" cityStateLookup_result call) /\
  (forall call r,
      RateV4Request h self fromZip toZip weight service record = Ok (call, r) ->
      fires_once h "RateV4Response" Some call).
Proof.
  unfold verify, zipCodeLookup, cityStateLookup, RateV4Request.
  split; [|split; [|split]]; intros call r Hop;
    try (destruct (address_fields address) as [fields|]; [|discriminate];
         cbn [rbind] in Hop).
  - refine (operation_fires_once _ _ _ _ _ _ _ _ _ _ _ _ verify_done_reshapes Hop).
    intros e data log. reflexivity.
  - refine (operation_fires_once _ _ _ _ _ _ _ _ _ _ _ _
              (zipCodeLookup_done_reshapes h) Hop).
    intros e data log. reflexivity.
  - refine (operation_fires_once _ _ _ _ _ _ _ _ _ _ _ _
              cityStateLookup_done_reshapes Hop).
    intros e data log. reflexivity.
  - refine (operation_fires_once _ _ _ _ _ _ _ _ _ _ _ _
              RateV4Request_done_reshapes Hop).
    intros e data log. reflexivity.
Qed.

(** The answer of the specification's example, and a transport that
    fails: the callback fires once in both, with the record and with the
    error. *)
Lemma callback_fires_once_examples :
  (exists call,
      cityStateLookup
        (answering (VObj [("CityStateLookupResponse",
                           VObj [("ZipCode", VArr [zip_code_node])])]))
        client (VStr "80202") record = Ok (call, Undefined) /\
      complete
        (answering (VObj [("CityStateLookupResponse",
                           VObj [("ZipCode", VArr [zip_code_node])])]))
        call [] =
      succeeded (VObj [("city", VStr "DENVER"); ("state", VStr "CO");
                       ("zip", VStr "80202")])) /\
  (exists call e,
      RateV4Request unreachable_host client (VStr "94103") (VStr "80202")
        (VStr "40") VUndef record = Ok (call, Undefined) /\
      complete unreachable_host call [] = failed e).
Proof.
  split.
  - eexists. split; [reflexivity|].
    destruct (callback_fires_once_unless_the_response_lacks_a_field
                (answering (VObj [("CityStateLookupResponse",
                                   VObj [("ZipCode", VArr [zip_code_node])])]))
                client (VObj address_no_street2) (VStr "80202") (VStr "94103")
                (VStr "80202") (VStr "40") VUndef)
      as [_ [_ [Hcity _]]].
    exact (Hcity _ Undefined eq_refl).
  - eexists. 
    destruct (callback_fires_once_unless_the_response_lacks_a_field
                unreachable_host
                client (VObj address_no_street2) (VStr "80202") (VStr "94103")
                (VStr "80202") (VStr "40") VUndef)
      as [_ [_ [_ Hrate]]].
    pose proof (Hrate _ Undefined eq_refl) as Hfired.
    destruct Hfired as [e He].
    exists e. split; [reflexivity|exact He].
Defined.

(** C9 as stated fails: the service answers a city/state lookup without
    an error and without a [City]; no error is found, the reshaping
    throws, and the caller's callback never fires. *)
Lemma callback_does_not_fire_on_missing_field :
  let tree := VObj [("CityStateLookupResponse",
                     VObj [("ZipCode", VArr [VObj [("Zip5", VArr [VStr "80202"])]])])] in
  parsed_tree tree = true /\
  reports_error (answering tree) "CityStateLookupResponse.ZipCode"
    {| url := VStr "http://production.shippingapis.com/ShippingAPI.dll";
       qs_API := "CityStateLookup"; qs_XML := "<xml/>"; timeout := VInt 100000 |}
  = false /\
  extract "CityStateLookup" "CityStateLookupResponse.ZipCode" tree
  = succeeded (VObj [("Zip5", VArr [VStr "80202"])]) /\
  outcome (answering tree)
    (cityStateLookup (answering tree) client (VStr "80202") record)
  = crashed TypeError.
Proof. repeat split; reflexivity. Qed.
